(** * A shallow embedding of agentic-doc's orchestration layer

    The modelled sources are [agentic_doc/utils.py] (PDF splitting, cropping,
    grounding materialization, retry logging) and [agentic_doc/config.py]
    (the [Settings] class).  The request client, the per-part parser and the
    merger live in [agentic_doc/parse.py], which is not part of the sources
    at hand; they are modelled from the specification and marked so. *)

From Stdlib Require Import ZArith Lia QArith Qround Qpower Qabs Lqa Ascii String.

From stdpp Require Import base gmap strings list.

Open Scope string_scope.

Open Scope Z_scope.

(** ** Python values, exceptions and helpers *)

(** A decimal rendering of Python ints, [str(n)]. *)
Definition digit_char (d : Z) : ascii := ascii_of_nat (48 + Z.to_nat d).

Fixpoint pos_digits (fuel : nat) (n : Z) (acc : string) : string :=
  match fuel with
  | O => acc
  | S f =>
      if n <? 10 then String (digit_char n) acc
      else pos_digits f (n / 10) (String (digit_char (n mod 10)) acc)
  end.

Definition Z_to_string (z : Z) : string :=
  let digits := pos_digits (S (Z.to_nat (Z.log2 (Z.abs z)))) (Z.abs z) "" in
  if z <? 0 then "-" ++ digits else digits.

(** An HTTP response as seen by the request client. *)
Record Response := mkResponse {
  status_code : Z;
  resp_text : string;
  resp_json : string
}.

(** The Python exceptions raised along the modelled paths. *)
Inductive PyExc :=
| AssertionError (msg : string)
| ValueError (msg : string)
| TypeError (msg : string)
| IndexError (msg : string)
| FileNotFoundError (msg : string)
| RetryableError (response : Response)
| HTTPStatusError (response : Response)
| TransportError (msg : string)
| OverflowError (msg : string)
| Cv2Error (msg : string)
| GenericException (msg : string).

(** [range(start, stop, step)] for a positive [step]: it has at most
    [stop - start] elements, which bounds the recursion. *)
Fixpoint py_range_from (fuel : nat) (start stop step : Z) : list Z :=
  match fuel with
  | O => []
  | S f =>
      if start <? stop then start :: py_range_from f (start + step) stop step
      else []
  end.

Definition py_range_step (start stop step : Z) : list Z :=
  py_range_from (Z.to_nat (stop - start)) start stop step.

Definition py_range (start stop : Z) : list Z := py_range_step start stop 1.

(** ** [split_pdf] (utils.py) *)

(** The input path as [pathlib.Path] decomposes it, with the file-system
    facts [split_pdf] observes: existence and the page count that
    [PdfReader] reports. *)
Record SourceFile := mkSourceFile {
  src_parent : string;
  src_stem : string;
  src_suffix : string;
  src_exists : bool;
  src_num_pages : nat
}.

Definition src_path (p : SourceFile) : string :=
  src_parent p ++ "/" ++ src_stem p ++ src_suffix p.

Definition ends_with_slash (s : string) : bool :=
  match rev (list_ascii_of_string s) with
  | c :: _ => Ascii.eqb c "/"
  | [] => false
  end.

(** [os.path.join(dir, name)] (posixpath): an absolute [name] replaces
    [dir]; otherwise ["/"] is inserted between them unless [dir] is empty
    or already ends with ["/"]. *)
Definition path_join (dir name : string) : string :=
  if String.prefix "/" name then name
  else if (String.eqb dir "" || ends_with_slash dir)%bool then dir ++ name
  else dir ++ "/" ++ name.

(** [Document(file_path, start_page_idx, end_page_idx)]. *)
Record Document := mkDocument {
  file_path : string;
  start_page_idx : Z;
  end_page_idx : Z
}.

(** File-system effects of the splitter, in order. *)
Inductive FsEvent :=
| Mkdir (dir : string)
| WritePdf (path : string) (pages : list Z).

(** The body of [for start in range(0, total_pages, split_size)]. *)
Fixpoint split_loop (total_pages split_size : Z) (stem output_dir : string)
    (file_count : Z) (starts : list Z) : list FsEvent * list Document :=
  match starts with
  | [] => ([], [])
  | start :: rest =>
      let pages := py_range start (Z.min (start + split_size) total_pages) in
      let output_pdf :=
        path_join output_dir (stem ++ "_" ++ Z_to_string file_count ++ ".pdf") in
      let doc := {| file_path := output_pdf;
                    start_page_idx := start;
                    end_page_idx := Z.min (start + split_size - 1) (total_pages - 1) |} in
      let '(evs, docs) :=
        split_loop total_pages split_size stem output_dir (file_count + 1) rest in
      (WritePdf output_pdf pages :: evs, doc :: docs)
  end.

(** [split_pdf input_pdf_path output_dir split_size]: the file-system events
    performed, and either the raised exception or the returned parts. *)
Definition split_pdf (input_pdf_path : SourceFile) (output_dir : string)
    (split_size : Z) : list FsEvent * (PyExc + list Document) :=
  if negb (src_exists input_pdf_path) then
    ([], inl (AssertionError ("Input PDF file not found: " ++ src_path input_pdf_path)))
  else if negb (String.eqb (src_suffix input_pdf_path) ".pdf") then
    ([], inl (AssertionError "Input file must be a PDF"))
  else if negb ((0 <? split_size) && (split_size <=? 2)) then
    ([], inl (AssertionError
                "split_size must be greater than 0 and less than or equal to 2"))
  else
    let total_pages := Z.of_nat (src_num_pages input_pdf_path) in
    let '(evs, docs) :=
      split_loop total_pages split_size (src_stem input_pdf_path) output_dir 1
        (py_range_step 0 total_pages split_size) in
    (Mkdir output_dir :: evs, inr docs).

Definition doc_range (d : Document) : Z * Z := (start_page_idx d, end_page_idx d).

(** [covers lo hi ranges]: the inclusive ranges, in order, tile [lo, hi)
    without gap or overlap, each range non-empty. *)
Fixpoint covers (lo hi : Z) (ranges : list (Z * Z)) : Prop :=
  match ranges with
  | [] => lo = hi
  | (a, b) :: rest => a = lo /\ a <= b /\ covers (b + 1) hi rest
  end.

Definition sample_pdf (n : nat) : SourceFile :=
  {| src_parent := "/data"; src_stem := "report"; src_suffix := ".pdf";
     src_exists := true; src_num_pages := n |}.

(** *** Splitter input errors *)

Definition missing_pdf : SourceFile :=
  {| src_parent := "/data"; src_stem := "missing"; src_suffix := ".pdf";
     src_exists := false; src_num_pages := 0 |}.

(** ** [_crop_image] (utils.py) *)

(** *** Python floats

    A finite binary64 float is modelled as the rational it denotes.
    [round_double x] is the float nearest to [x], ties to even: 53-bit
    significands and gradual underflow down to [2^-1074]; the overflow
    threshold [2^1024] is checked where the code can reach it. *)

(** [floor (log2 x)] for [x > 0]: the logarithms of numerator and
    denominator give it up to one. *)
Definition Qlog2_floor (x : Q) : Z :=
  let k := Z.log2 (Qnum x) - Z.log2 (Zpos (Qden x)) in
  if Qle_bool (2 ^ k) x then k else k - 1.

(** The exponent of the last significand bit of the float nearest [x > 0]. *)
Definition float_exponent (x : Q) : Z := Z.max (Qlog2_floor x - 52) (-1074).

(** Rounding to an integer, ties to even. *)
Definition Qround_even (y : Q) : Z :=
  let f := Qfloor y in
  match (y - inject_Z f ?= 1 # 2)%Q with
  | Lt => f
  | Gt => f + 1
  | Eq => if Z.even f then f else f + 1
  end.

Definition round_pos (x : Q) : Q :=
  let e := float_exponent x in
  inject_Z (Qround_even (x * 2 ^ (- e))) * 2 ^ e.

Definition round_double (x : Q) : Q :=
  match (x ?= 0)%Q with
  | Eq => 0
  | Gt => round_pos x
  | Lt => - round_pos (- x)
  end.

(** [float(n)] for a Python int ([PyLong_AsDouble]): correctly rounded,
    and [OverflowError] when the rounded value reaches [2^1024]. *)
Definition py_float_of_int (n : Z) : PyExc + Q :=
  let f := round_double (inject_Z n) in
  if Qle_bool (2 ^ 1024) (Qabs f) then inl (OverflowError "int too large to convert to float")
  else inr f.

(** [x * y] on two floats whose rounded product is below the overflow
    threshold: the exact product, rounded to nearest. *)
Definition py_float_mul (x y : Q) : Q := round_double (x * y).

(** [ChunkGroundingBox(l, t, r, b)], normalized coordinates: pydantic
    [float] fields, so each coordinate is a float (a rational of the form
    [round_double q]). *)
Record ChunkGroundingBox := mkBox { l : Q; t : Q; r : Q; b : Q }.

(** A raster [np.ndarray] as its list of rows; [image.shape[:2]]. *)
Definition Raster := list (list Z).

Definition img_shape (image : Raster) : Z * Z :=
  (Z.of_nat (length image),
   match image with row :: _ => Z.of_nat (length row) | [] => 0 end).

(** Python's normalisation of a slice bound (step 1). *)
Definition py_slice_index (len i : Z) : Z :=
  if i <? 0 then Z.max 0 (i + len) else Z.min i len.

(** [xs[a:b]]. *)
Definition py_slice {A} (xs : list A) (a b : Z) : list A :=
  let len := Z.of_nat (length xs) in
  let a' := py_slice_index len a in
  let b' := py_slice_index len b in
  firstn (Z.to_nat (b' - a')) (skipn (Z.to_nat a') xs).

Definition in_unit (q : Q) : bool := Qle_bool 0 q && Qle_bool q 1.

(** Lines 130-144 of [_crop_image]: the assertion, the rounding of the
    float products [xmin * width] (floor) and [xmax * width] (ceil), and
    likewise with [height], then the clamping; the result is
    [(xmin, ymin, xmax, ymax)].  Converting [width], then [height], to a
    float is the only step that can raise after the assertion. *)
Definition crop_bounds (height width : Z) (bbox : ChunkGroundingBox)
    : PyExc + (Z * Z * Z * Z) :=
  let '(xmin, ymin, xmax, ymax) := (l bbox, t bbox, r bbox, b bbox) in
  if negb (in_unit xmin && in_unit ymin && in_unit xmax && in_unit ymax) then
    inl (AssertionError "")
  else
    match py_float_of_int width with
    | inl e => inl e
    | inr fwidth =>
    match py_float_of_int height with
    | inl e => inl e
    | inr fheight =>
    let xmin := Qfloor (py_float_mul xmin fwidth) in
    let xmax := Qceiling (py_float_mul xmax fwidth) in
    let ymin := Qfloor (py_float_mul ymin fheight) in
    let ymax := Qceiling (py_float_mul ymax fheight) in
    let xmin := Z.max 0 xmin in
    let ymin := Z.max 0 ymin in
    let xmax := Z.min width xmax in
    let ymax := Z.min height ymax in
    inr (xmin, ymin, xmax, ymax)
    end
    end.

(** [_crop_image(image, bbox)] returns [image[ymin:ymax, xmin:xmax]]. *)
Definition _crop_image (image : Raster) (bbox : ChunkGroundingBox) : PyExc + Raster :=
  let '(height, width) := img_shape image in
  match crop_bounds height width bbox with
  | inl e => inl e
  | inr (xmin, ymin, xmax, ymax) =>
      inr (map (fun row => py_slice row xmin xmax) (py_slice image ymin ymax))
  end.

(** The box [(0.1, 0.1, 0.5, 0.5)]: each literal is the float nearest to
    the decimal. *)
Definition box_scenario : ChunkGroundingBox :=
  {| l := round_double (1 # 10); t := round_double (1 # 10);
     r := round_double (1 # 2); b := round_double (1 # 2) |}.

(** The box [(0.29, 0.29, 0.51, 0.51)], float literals. *)
Definition box_rounding : ChunkGroundingBox :=
  {| l := round_double (29 # 100); t := round_double (29 # 100);
     r := round_double (51 # 100); b := round_double (51 # 100) |}.

Definition blank_raster (height width : nat) : Raster := repeat (repeat 0 width) height.

(** ** Grounding materialization (utils.py) *)

Inductive ChunkType := text_ct | title_ct | table_ct | figure_ct | marginalia_ct | error_ct.

Definition is_error (ct : ChunkType) : bool :=
  match ct with error_ct => true | _ => false end.

(** [ChunkGrounding(page, box)]; [image_path] is not modelled. *)
Record ChunkGrounding := mkGrounding { page : Z; box : option ChunkGroundingBox }.

Record Chunk := mkChunk {
  text : string;
  chunk_type : ChunkType;
  chunk_id : string;
  grounding : list ChunkGrounding
}.

(** Python list indexing [xs[i]], negative indices counting from the end. *)
Definition py_index {A} (xs : list A) (i : Z) : PyExc + A :=
  let len := Z.of_nat (length xs) in
  let j := if i <? 0 then i + len else i in
  if (0 <=? j) && (j <? len) then
    match nth_error xs (Z.to_nat j) with
    | Some x => inr x
    | None => inl (IndexError "list index out of range")
    end
  else inl (IndexError "list index out of range").

(** A rendered PDF: the RGB raster [page_to_image] produces for each page at
    the configured dpi (the alpha channel already dropped). *)
Definition PdfDoc := list Raster.

Definition page_to_image (pdf_doc : PdfDoc) (page_idx : Z) : PyExc + Raster :=
  py_index pdf_doc page_idx.

(** One crop file written by [_crop_groundings]: its path and content, the
    PNG encoding of the crop, which is lossless, so the content is given as
    the cropped raster itself.  Each written file is also appended to
    [result[c.chunk_id]]. *)
Definition CropFile := (string * Raster)%type.

(** An image with no pixel: no rows, or rows of width zero. *)
Definition raster_empty (img : Raster) : bool :=
  forallb (fun row => Nat.eqb (length row) 0) img.

(** [cv2.imencode(".png", img)]: an empty image fails OpenCV's assertion
    [!image.empty()] and raises [cv2.error] (its message is given without
    the build-dependent source location); an 8-bit raster with pixels
    is encoded, so the [not is_success] branch of the caller is not taken. *)
Definition cv2_imencode_png (img : Raster) : PyExc + Raster :=
  if raster_empty img
  then inl (Cv2Error "(-215:Assertion failed) !image.empty() in function 'imencode'")
  else inr img.

Definition crop_save_path (crop_save_dir : string) (g : ChunkGrounding)
    (c : Chunk) (i : nat) : string :=
  crop_save_dir ++ "/page_" ++ Z_to_string (page g) ++ "/" ++
  chunk_id c ++ "_" ++ Z_to_string (Z.of_nat i) ++ ".png".

(** The inner loop [for i, grounding in enumerate(c.grounding)]: the files
    written, and the exception that stopped the loop if any. *)
Fixpoint crop_chunk_groundings (img : Raster) (c : Chunk) (crop_save_dir : string)
    (i : nat) (gs : list ChunkGrounding) : list CropFile * option PyExc :=
  match gs with
  | [] => ([], None)
  | g :: rest =>
      match box g with
      | None => crop_chunk_groundings img c crop_save_dir (S i) rest
      | Some bx =>
          match _crop_image img bx with
          | inl e => ([], Some e)
          | inr cropped =>
              match cv2_imencode_png cropped with
              | inl e => ([], Some e)
              | inr buffer =>
                  let '(files, err) := crop_chunk_groundings img c crop_save_dir (S i) rest in
                  ((crop_save_path crop_save_dir g c i, buffer) :: files, err)
              end
          end
      end
  end.

(** [_crop_groundings(img, chunks, crop_save_dir)]. *)
Fixpoint _crop_groundings (img : Raster) (chunks : list Chunk) (crop_save_dir : string)
    : list CropFile * option PyExc :=
  match chunks with
  | [] => ([], None)
  | c :: rest =>
      if is_error (chunk_type c) then _crop_groundings img rest crop_save_dir
      else
        let '(files, err) := crop_chunk_groundings img c crop_save_dir 0 (grounding c) in
        match err with
        | Some e => (files, Some e)
        | None =>
            let '(files', err') := _crop_groundings img rest crop_save_dir in
            (app files files', err')
        end
  end.

(** [chunks_by_page_idx[page_idx].append(chunk)] on an insertion-ordered
    association list. *)
Fixpoint group_append (page_idx : Z) (c : Chunk) (groups : list (Z * list Chunk))
    : list (Z * list Chunk) :=
  match groups with
  | [] => [(page_idx, [c])]
  | (k, cs) :: rest =>
      if Z.eqb k page_idx then (k, app cs [c]) :: rest
      else (k, cs) :: group_append page_idx c rest
  end.

(** The grouping loop of [save_groundings_as_images]: error chunks are
    skipped and each chunk goes under [chunk.grounding[0].page]. *)
Fixpoint group_by_first_page (chunks : list Chunk) (groups : list (Z * list Chunk))
    : PyExc + list (Z * list Chunk) :=
  match chunks with
  | [] => inr groups
  | c :: rest =>
      if is_error (chunk_type c) then group_by_first_page rest groups
      else
        match py_index (grounding c) 0 with
        | inl e => inl e
        | inr g0 => group_by_first_page rest (group_append (page g0) c groups)
        end
  end.

(** [sorted(chunks_by_page_idx.items())]: the keys are distinct. *)
Fixpoint insert_by_key (kv : Z * list Chunk) (xs : list (Z * list Chunk))
    : list (Z * list Chunk) :=
  match xs with
  | [] => [kv]
  | y :: ys => if fst kv <=? fst y then kv :: y :: ys else y :: insert_by_key kv ys
  end.

Definition sort_by_key (xs : list (Z * list Chunk)) : list (Z * list Chunk) :=
  fold_right insert_by_key [] xs.

Fixpoint crop_pages (pdf_doc : PdfDoc) (save_dir : string) (groups : list (Z * list Chunk))
    : list CropFile * option PyExc :=
  match groups with
  | [] => ([], None)
  | (page_idx, chunks) :: rest =>
      match page_to_image pdf_doc page_idx with
      | inl e => ([], Some e)
      | inr page_img =>
          let '(files, err) := _crop_groundings page_img chunks save_dir in
          match err with
          | Some e => (files, Some e)
          | None =>
              let '(files', err') := crop_pages pdf_doc save_dir rest in
              (app files files', err')
          end
      end
  end.

(** The source handed to [save_groundings_as_images]: a PDF, rendered page
    by page on demand, or a single image read with [cv2.imread]. *)
Inductive GroundingSource := PdfSource (pdf_doc : PdfDoc) | ImageSource (img : Raster).

(** [save_groundings_as_images(file_path, chunks, save_dir)]: the crop files
    written, and the exception raised if any. *)
Definition save_groundings_as_images (source : GroundingSource) (chunks : list Chunk)
    (save_dir : string) : list CropFile * option PyExc :=
  match source with
  | ImageSource img => _crop_groundings img chunks save_dir
  | PdfSource pdf_doc =>
      match group_by_first_page chunks [] with
      | inl e => ([], Some e)
      | inr groups => crop_pages pdf_doc save_dir (sort_by_key groups)
      end
  end.

Definition full_box : ChunkGroundingBox := {| l := 0; t := 0; r := 1; b := 1 |}.

(** Two one-pixel pages with different content. *)
Definition two_page_pdf : PdfDoc := [ [[0]]; [[1]] ].

(** A text chunk grounded on page 0 and on page 1. *)
Definition two_page_chunk : Chunk :=
  {| text := "spans two pages"; chunk_type := text_ct; chunk_id := "c";
     grounding := [ {| page := 0; box := Some full_box |};
                    {| page := 1; box := Some full_box |} ] |}.

(** ** [Settings] (config.py) *)

Inductive PyVal := PInt (z : Z) | PStr (s : string) | PNone.

(** [str(value)]. *)
Definition py_str (v : PyVal) : string :=
  match v with PInt z => Z_to_string z | PStr s => s | PNone => "None" end.

(** [int(s)] on a string: surrounding whitespace, an optional sign, and
    decimal digits with single underscores between digits. *)
Definition is_py_space (c : ascii) : bool :=
  let n := nat_of_ascii c in (Nat.eqb n 32 || (Nat.leb 9 n && Nat.leb n 13))%bool.

Definition is_digit (c : ascii) : bool :=
  let n := nat_of_ascii c in (Nat.leb 48 n && Nat.leb n 57)%bool.

Fixpoint drop_spaces (cs : list ascii) : list ascii :=
  match cs with
  | c :: rest => if is_py_space c then drop_spaces rest else cs
  | [] => []
  end.

Definition py_strip (cs : list ascii) : list ascii :=
  rev (drop_spaces (rev (drop_spaces cs))).

Fixpoint digits_value (cs : list ascii) (acc : Z) (prev_digit : bool) : option Z :=
  match cs with
  | [] => if prev_digit then Some acc else None
  | c :: rest =>
      if is_digit c then
        digits_value rest (acc * 10 + Z.of_nat (nat_of_ascii c - 48)) true
      else if (Ascii.eqb c "_" && prev_digit)%bool then digits_value rest acc false
      else None
  end.

Definition py_int_of_string (s : string) : option Z :=
  match py_strip (list_ascii_of_string s) with
  | c :: rest =>
      if Ascii.eqb c "-" then option_map Z.opp (digits_value rest 0 false)
      else if Ascii.eqb c "+" then digits_value rest 0 false
      else digits_value (c :: rest) 0 false
  | [] => None
  end.

(** [int(value)]: [None] when Python raises [ValueError] or [TypeError]. *)
Definition py_int (v : PyVal) : option Z :=
  match v with PInt z => Some z | PStr s => py_int_of_string s | PNone => None end.

Inductive RuleType := IntRule | StrRule.

Record Rule := mkRule {
  rtype : RuleType;
  rmin : option Z;
  rmax : option Z;
  rchoices : option (list string)
}.

Definition int_rule (mn : Z) (mx : option Z) : Rule :=
  {| rtype := IntRule; rmin := Some mn; rmax := mx; rchoices := None |}.

Definition _validation_rules : gmap string Rule :=
  list_to_map [
    ("batch_size", int_rule 1 None);
    ("max_workers", int_rule 1 None);
    ("max_retries", int_rule 0 None);
    ("max_retry_wait_time", int_rule 0 None);
    ("pdf_to_image_dpi", int_rule 1 None);
    ("split_size", int_rule 1 (Some 100));
    ("extraction_split_size", int_rule 1 (Some 50));
    ("retry_logging_style",
      {| rtype := StrRule; rmin := None; rmax := None;
         rchoices := Some ["none"; "log_msg"; "inline_block"] |}) ].

Definition _defaults : gmap string PyVal :=
  list_to_map [
    ("endpoint_host", PStr "https://api.va.landing.ai");
    ("vision_agent_api_key", PStr "");
    ("batch_size", PInt 4);
    ("max_workers", PInt 5);
    ("max_retries", PInt 100);
    ("max_retry_wait_time", PInt 60);
    ("retry_logging_style", PStr "log_msg");
    ("pdf_to_image_dpi", PInt 96);
    ("split_size", PInt 10);
    ("extraction_split_size", PInt 50) ].

Definition _env_mappings : gmap string string :=
  list_to_map [
    ("vision_agent_api_key", "VISION_AGENT_API_KEY");
    ("endpoint_host", "VA_ENDPOINT_HOST");
    ("batch_size", "VA_BATCH_SIZE");
    ("max_workers", "VA_MAX_WORKERS");
    ("max_retries", "VA_MAX_RETRIES");
    ("max_retry_wait_time", "VA_MAX_RETRY_WAIT_TIME");
    ("retry_logging_style", "VA_RETRY_LOGGING_STYLE");
    ("pdf_to_image_dpi", "VA_PDF_TO_IMAGE_DPI");
    ("split_size", "VA_SPLIT_SIZE");
    ("extraction_split_size", "VA_EXTRACTION_SPLIT_SIZE") ].

(** The min, max and choices checks of [_validate_value]. *)
Definition check_min (key : string) (rules : Rule) (v : PyVal) : PyExc + PyVal :=
  match rmin rules with
  | None => inr v
  | Some mn =>
      match v with
      | PInt z => if z <? mn then inl (ValueError ("Invalid value for " ++ key ++
                                       ": must be >= " ++ Z_to_string mn))
                  else inr v
      | _ => inl (TypeError "'<' not supported")
      end
  end.

Definition check_max (key : string) (rules : Rule) (v : PyVal) : PyExc + PyVal :=
  match rmax rules with
  | None => inr v
  | Some mx =>
      match v with
      | PInt z => if mx <? z then inl (ValueError ("Invalid value for " ++ key ++
                                       ": must be <= " ++ Z_to_string mx))
                  else inr v
      | _ => inl (TypeError "'>' not supported")
      end
  end.

(** [str(choices)] for a list of strings holding no quote or backslash, as
    the configured choices do: [['none', 'log_msg', 'inline_block']]. *)
Definition py_str_list (cs : list string) : string :=
  "[" ++ String.concat ", " (map (fun s => "'" ++ s ++ "'") cs) ++ "]".

Definition check_choices (key : string) (rules : Rule) (v : PyVal) : PyExc + PyVal :=
  match rchoices rules with
  | None => inr v
  | Some cs =>
      let ok := match v with
                | PStr s => existsb (String.eqb s) cs
                | _ => false
                end in
      if ok then inr v
      else inl (ValueError ("Invalid value for " ++ key ++ ": must be one of " ++
                            py_str_list cs))
  end.

Definition _validate_value (key : string) (value : PyVal) : PyExc + PyVal :=
  match _validation_rules !! key with
  | None => inr value
  | Some rules =>
      let converted :=
        match rtype rules with
        | IntRule =>
            match py_int value with
            | Some z => inr (PInt z)
            | None => inl (ValueError ("Invalid value for " ++ key ++ ": must be an integer"))
            end
        | StrRule => inr (PStr (py_str value))
        end in
      match converted with
      | inl e => inl e
      | inr v =>
          match check_min key rules v with
          | inl e => inl e
          | inr v =>
              match check_max key rules v with
              | inl e => inl e
              | inr v => check_choices key rules v
              end
          end
      end
  end.

(** The state the [Settings] methods read and write: the instance's
    [_user_values], the process environment [os.environ], and the level of
    the [httpx] logger (set to WARNING by the validation checks). *)
Record Settings := mkSettings {
  _user_values : gmap string PyVal;
  environ : gmap string string;
  httpx_level_warning : bool
}.

(** [Settings()]: [load_dotenv()] adds the [.env] entries that the
    environment does not already define. *)
Definition settings_init (os_environ dotenv : gmap string string) : Settings :=
  {| _user_values := ∅; environ := os_environ ∪ dotenv; httpx_level_warning := false |}.

(** A state monad with Python exceptions: a method that raises still leaves
    the mutations it made before raising. *)
Definition SM (A : Type) : Type := Settings -> Settings * (PyExc + A).

Definition sm_ret {A} (x : A) : SM A := fun st => (st, inr x).

Definition sm_bind {A B} (m : SM A) (k : A -> SM B) : SM B :=
  fun st => match m st with
            | (st', inl e) => (st', inl e)
            | (st', inr x) => k x st'
            end.

Definition sm_raise {A} (e : PyExc) : SM A := fun st => (st, inl e).

Definition sm_lift {A} (r : PyExc + A) : SM A := fun st => (st, r).

Notation "x <- m ;; k" := (sm_bind m (fun x => k))
  (at level 100, m at next level, right associativity).

(** [_get_value(key)]: user-set value, else validated environment value,
    else default. *)
Definition _get_value_pure (key : string) (st : Settings) : PyExc + PyVal :=
  match _user_values st !! key with
  | Some v => inr v
  | None =>
      let default := match _defaults !! key with Some v => inr v | None => inr PNone end in
      match _env_mappings !! key with
      | Some env_var =>
          match environ st !! env_var with
          | Some env_value => _validate_value key (PStr env_value)
          | None => default
          end
      | None => default
      end
  end.

Definition _get_value (key : string) : SM PyVal :=
  fun st => (st, _get_value_pure key st).

(** [a * b] on the two values read; ints multiply. *)
Definition py_mul (a b : PyVal) : PyExc + Z :=
  match a, b with
  | PInt x, PInt y => inr (x * y)
  | _, _ => inl (TypeError "unsupported operand type(s) for *")
  end.

Definition _MAX_PARALLEL_TASKS : Z := 200.

Definition _run_validation_checks : SM unit :=
  bs <- _get_value "batch_size" ;;
  mw <- _get_value "max_workers" ;;
  prod <- sm_lift (py_mul bs mw) ;;
  _ <- (if _MAX_PARALLEL_TASKS <? prod then
          sm_raise (ValueError ("Batch size * max workers must be less than " ++
                      Z_to_string _MAX_PARALLEL_TASKS ++
                      ". Please reduce the batch size or max workers." ++
                      " Current settings: batch_size=" ++ py_str bs ++
                      ", max_workers=" ++ py_str mw))
        else sm_ret tt) ;;
  style <- _get_value "retry_logging_style" ;;
  (match style with
   | PStr s => if String.eqb s "inline_block" then
                 fun st => ({| _user_values := _user_values st; environ := environ st;
                                httpx_level_warning := true |}, inr tt)
               else sm_ret tt
   | _ => sm_ret tt
   end).

(** [_set_value(key, value)]: validate, store, then run the checks. *)
Definition _set_value (key : string) (value : PyVal) : SM unit :=
  validated_value <- sm_lift (_validate_value key value) ;;
  _ <- (fun st => ({| _user_values := <[key := validated_value]> (_user_values st);
                      environ := environ st;
                      httpx_level_warning := httpx_level_warning st |}, inr tt)) ;;
  _run_validation_checks.

(** The property setters [va_batch_size], [va_max_workers] and the legacy
    aliases [batch_size], [max_workers] that delegate to them. *)
Definition set_batch_size (value : PyVal) : SM unit := _set_value "batch_size" value.

Definition set_max_workers (value : PyVal) : SM unit := _set_value "max_workers" value.

Definition env_two (k1 v1 k2 v2 : string) : gmap string string :=
  <[k1 := v1]> (<[k2 := v2]> ∅).

Definition store_user_value (key : string) (v : PyVal) (st : Settings) : Settings :=
  {| _user_values := <[key := v]> (_user_values st);
     environ := environ st;
     httpx_level_warning := httpx_level_warning st |}.

(** ** Retry logging and the retry policy *)

(** [str(exception)]; a [RetryableError] renders as ["status - text"]. *)
Definition exc_str (e : PyExc) : string :=
  match e with
  | AssertionError m | ValueError m | TypeError m | IndexError m
  | FileNotFoundError m | TransportError m | OverflowError m | Cv2Error m
  | GenericException m => m
  | RetryableError resp | HTTPStatusError resp =>
      Z_to_string (status_code resp) ++ " - " ++ resp_text resp
  end.

Inductive Outcome := Success (payload : string) | Failed (e : PyExc).

(** The fields of tenacity's [RetryCallState] that the hook reads. *)
Record RetryCallState := mkRetryCallState {
  attempt_number : nat;
  outcome : option Outcome;
  fn : option string
}.

(** Diagnostic output: a debug log line, or the yellow progress block of
    [attempt_number] cells printed in place. *)
Inductive Diag := LogDebug (msg : string) | InlineBlock (cells : nat).

(** [log_retry_failure(retry_state)], with [settings.retry_logging_style]
    passed as [style]: the diagnostics emitted, or the exception raised. *)
Definition log_retry_failure (style : string) (retry_state : RetryCallState)
    : PyExc + list Diag :=
  match outcome retry_state with
  | Some (Failed exception) =>
      if String.eqb style "log_msg" then
        let func_name := match fn retry_state with
                         | Some name => name
                         | None => "unknown_function"
                         end in
        inr [LogDebug ("'" ++ func_name ++ "' failed on attempt " ++
                       Z_to_string (Z.of_nat (attempt_number retry_state)) ++
                       ". Error: '" ++ exc_str exception ++ "'.")]
      else if String.eqb style "inline_block" then
        inr [InlineBlock (attempt_number retry_state)]
      else if String.eqb style "none" then inr []
      else inl (ValueError ("Invalid retry logging style: " ++ style))
  | _ => inr []
  end.

Definition valid_style (style : string) : Prop :=
  style = "none" \/ style = "log_msg" \/ style = "inline_block".

(** [log_retry_failure(retry_state)] as the program runs it, reading the
    style from the module-level [settings]: [settings.retry_logging_style]
    is [_get_value("retry_logging_style")], read only on a failed outcome.
    The reads of one call all return the same value ([_get_value] does not
    change the state), the first one that raises propagates, and the
    comparisons and the message use [str] of the value read. *)
Definition log_retry_failure_settings (st : Settings) (retry_state : RetryCallState)
    : PyExc + list Diag :=
  match outcome retry_state with
  | Some (Failed _) =>
      match _get_value_pure "retry_logging_style" st with
      | inl e => inl e
      | inr style => log_retry_failure (py_str style) retry_state
      end
  | _ => inr []
  end.

Section RetryPolicy.

(** Modelled from the spec: the retry wrapper of the request client (its
    decorator in [agentic_doc/parse.py] is not among the sources).  A
    [RetryableError] is retried after the backoff [wait attempt] (base,
    ceiling and jitter folded into [wait]) up to [max_attempts] attempts,
    after which the last error is surfaced; any other error fails at once;
    after each failed attempt that is to be retried the [after] hook runs,
    and an exception it raises propagates out of the wrapper. *)
Variable max_attempts : nat.

Variable wait : nat -> Z.

Variable request : nat -> Outcome.

Definition is_retryable (e : PyExc) : bool :=
  match e with RetryableError _ => true | _ => false end.

Record RetryRun := mkRetryRun {
  attempts : nat;
  sleeps : list Z;
  final : Outcome;
  diagnostics : list Diag
}.

Fixpoint retry_from (after : RetryCallState -> PyExc + list Diag)
    (remaining attempt : nat) : RetryRun :=
  match request attempt with
  | Success p => mkRetryRun attempt [] (Success p) []
  | Failed e =>
      if negb (is_retryable e) then mkRetryRun attempt [] (Failed e) []
      else
        match after (mkRetryCallState attempt (Some (Failed e))
                       (Some "_send_parsing_request")) with
        | inl hook_error => mkRetryRun attempt [] (Failed hook_error) []
        | inr ds =>
            match remaining with
            | O => mkRetryRun attempt [] (Failed e) ds
            | S rest =>
                let run := retry_from after rest (S attempt) in
                mkRetryRun (attempts run) (wait attempt :: sleeps run) (final run)
                  (app ds (diagnostics run))
            end
        end
  end.

Definition retry_call (after : RetryCallState -> PyExc + list Diag) : RetryRun :=
  retry_from after (max_attempts - 1) 1.

(** The control flow of a run: attempts, backoffs and result. *)
Definition control (run : RetryRun) : nat * list Z * Outcome :=
  (attempts run, sleeps run, final run).

End RetryPolicy.

Definition rate_limited : Response := mkResponse 429 "Rate limit exceeded" "".

Definition three_429_then_ok (attempt : nat) : Outcome :=
  if Nat.leb attempt 3 then Failed (RetryableError rate_limited) else Success "ok".

(** ** Request client, part parser and merger (parse.py) *)

(** The outcome of the HTTP exchange: a transport failure, or a response. *)
Inductive HttpExchange := TransportFailure (msg : string) | Received (resp : Response).

Section RequestClient.

(** The 5xx statuses that reflect overload or timeout; the spec does not
    list them, only that they are 5xx codes. *)
Variable overload_5xx : Z -> bool.

Definition retryable_status (s : Z) : bool := (s =? 429) || overload_5xx s.

(** Modelled from the spec: the outcome classification of
    [_send_parsing_request] ([agentic_doc/parse.py], not among the sources):
    a status in the retryable set raises [RetryableError] carrying the
    response, a 2xx status returns the parsed payload, any other status or a
    transport failure raises a terminal error. *)
Definition _send_parsing_request (exchange : HttpExchange) : PyExc + string :=
  match exchange with
  | TransportFailure msg => inl (TransportError msg)
  | Received response =>
      let s := status_code response in
      if retryable_status s then inl (RetryableError response)
      else if (200 <=? s) && (s <? 300) then inr (resp_json response)
      else inl (HTTPStatusError response)
  end.

End RequestClient.

(** An instance of the overload/timeout set (502, 503, 504) for concrete runs. *)
Definition gateway_5xx (s : Z) : bool := (s =? 502) || (s =? 503) || (s =? 504).

Module Parsed.

(** [ParsedDocument]: a per-part or whole-document result. *)
Record ParsedDocument := mkParsed {
  markdown : string;
  chunks : list Chunk;
  start_page_idx : Z;
  end_page_idx : Z;
  doc_type : string
}.

End Parsed.

(** Modelled from the spec: [_parse_doc_parts] ([agentic_doc/parse.py], not
    among the sources) on the outcome of the retried request for one part.
    A success becomes the part's result; a terminal failure is caught and
    becomes one error chunk per page of the part's range, each carrying the
    error's message as its text and grounded on that page.  [decode] stands
    for reading markdown and chunks out of the endpoint's payload. *)
Definition _parse_doc_parts (decode : string -> string * list Chunk)
    (doc : Document) (result : Outcome) : Parsed.ParsedDocument :=
  match result with
  | Success payload =>
      let '(md, cs) := decode payload in
      {| Parsed.markdown := md; Parsed.chunks := cs;
         Parsed.start_page_idx := start_page_idx doc;
         Parsed.end_page_idx := end_page_idx doc; Parsed.doc_type := "pdf" |}
  | Failed e =>
      let error_msg := exc_str e in
      {| Parsed.markdown := "";
         Parsed.chunks := map (fun i => {| text := error_msg; chunk_type := error_ct;
                                    chunk_id := "";
                                    grounding := [ {| page := i; box := None |} ] |})
                   (py_range (start_page_idx doc) (end_page_idx doc + 1));
         Parsed.start_page_idx := start_page_idx doc;
         Parsed.end_page_idx := end_page_idx doc; Parsed.doc_type := "pdf" |}
  end.

Definition no_decode (payload : string) : string * list Chunk := (payload, []).

(** *** Merger *)

Definition shift_grounding (offset : Z) (g : ChunkGrounding) : ChunkGrounding :=
  {| page := page g + offset; box := box g |}.

Definition shift_chunk (offset : Z) (c : Chunk) : Chunk :=
  {| text := text c; chunk_type := chunk_type c; chunk_id := chunk_id c;
     grounding := map (shift_grounding offset) (grounding c) |}.

(** Modelled from the spec: [_merge_next_part(curr, next)]
    ([agentic_doc/parse.py], not among the sources).  The markdown of [next]
    is appended after a blank line, every grounding page of [next]'s chunks
    is re-offset by the accumulator's trailing page count (its end page
    index plus one), the chunks are appended and the end page index becomes
    [next]'s. *)
Definition _merge_next_part (curr next : Parsed.ParsedDocument) : Parsed.ParsedDocument :=
  {| Parsed.markdown := Parsed.markdown curr ++ "

" ++ Parsed.markdown next;
     Parsed.chunks := app (Parsed.chunks curr)
                        (map (shift_chunk (Parsed.end_page_idx curr + 1)) (Parsed.chunks next));
     Parsed.start_page_idx := Parsed.start_page_idx curr;
     Parsed.end_page_idx := Parsed.end_page_idx next;
     Parsed.doc_type := Parsed.doc_type curr |}.

(** Modelled from the spec: [_merge_part_results(results)]: an empty list
    gives an empty result on pages [0,0]; otherwise the first part is the
    accumulator and the others are merged into it in order. *)
Definition _merge_part_results (results : list Parsed.ParsedDocument) : Parsed.ParsedDocument :=
  match results with
  | [] => {| Parsed.markdown := ""; Parsed.chunks := []; Parsed.start_page_idx := 0;
             Parsed.end_page_idx := 0; Parsed.doc_type := "pdf" |}
  | first :: rest => fold_left _merge_next_part rest first
  end.

Definition one_chunk_part (name : string) (lo hi : Z) : Parsed.ParsedDocument :=
  {| Parsed.markdown := "# " ++ name;
     Parsed.chunks := [ {| text := name; chunk_type := title_ct; chunk_id := name;
                          grounding := [ {| page := 0; box := None |} ] |} ];
     Parsed.start_page_idx := lo; Parsed.end_page_idx := hi; Parsed.doc_type := "pdf" |}.

(** The chunks of parts [1..] after merging: part [k]'s grounding pages are
    re-offset by the end page index of part [k-1] plus one. *)
Fixpoint shifted_tail (prev_end : Z) (ps : list Parsed.ParsedDocument) : list Chunk :=
  match ps with
  | [] => []
  | q :: qs => app (map (shift_chunk (prev_end + 1)) (Parsed.chunks q))
                   (shifted_tail (Parsed.end_page_idx q) qs)
  end.

Definition page_count (p : Parsed.ParsedDocument) : Z :=
  Parsed.end_page_idx p - Parsed.start_page_idx p + 1.

Definition pages_before (ps : list Parsed.ParsedDocument) : Z :=
  fold_right (fun p acc => page_count p + acc) 0 ps.

(** The chunks of parts [1..] re-offset, part [k] by the sum of the page
    counts of parts [0..k-1]. *)
Fixpoint shifted_by_counts (before ps : list Parsed.ParsedDocument) : list Chunk :=
  match ps with
  | [] => []
  | q :: qs => app (map (shift_chunk (pages_before before)) (Parsed.chunks q))
                   (shifted_by_counts (app before [q]) qs)
  end.

(** The parts' page ranges follow one another from page [s] on. *)
Fixpoint contiguous_from (s : Z) (ps : list Parsed.ParsedDocument) : Prop :=
  match ps with
  | [] => True
  | q :: qs => Parsed.start_page_idx q = s /\ contiguous_from (Parsed.end_page_idx q + 1) qs
  end.

(** ** [get_file_type] (utils.py) *)

(** [str.lower()] on a path suffix; suffixes are ASCII strings here, so
    only the letters [A]..[Z] change. *)
Definition ascii_lower (c : ascii) : ascii :=
  let n := nat_of_ascii c in
  if (Nat.leb 65 n && Nat.leb n 90)%bool then ascii_of_nat (n + 32) else c.

Definition str_lower (s : string) : string :=
  string_of_list_ascii (map ascii_lower (list_ascii_of_string s)).

Inductive FileType := pdf_file | image_file.

(** [get_file_type(file_path)]. *)
Definition get_file_type (file_path : SourceFile) : FileType :=
  if String.eqb (str_lower (src_suffix file_path)) ".pdf" then pdf_file else image_file.

(** ** Crop loop vocabulary *)


(** The condition asserted at the top of [_crop_image]. *)
Definition box_in_unit (bx : ChunkGroundingBox) : Prop :=
  (0 <= l bx <= 1)%Q /\ (0 <= t bx <= 1)%Q /\ (0 <= r bx <= 1)%Q /\ (0 <= b bx <= 1)%Q.

(** ** [Settings.__str__] (config.py) *)

(** The keys of [self._defaults], in insertion order. *)
Definition _defaults_keys : list string :=
  ["endpoint_host"; "vision_agent_api_key"; "batch_size"; "max_workers";
   "max_retries"; "max_retry_wait_time"; "retry_logging_style";
   "pdf_to_image_dpi"; "split_size"; "extraction_split_size"].

Definition prop_name (key : string) : string :=
  if String.prefix "vision_agent_api_key" key then key else "va_" ++ key.

(** [value = value[:5] + "[REDACTED]" if len(value) > 5 else "[REDACTED]"],
    run when the value is truthy. *)
Definition redact_api_key (value : PyVal) : PyExc + PyVal :=
  match value with
  | PStr EmptyString | PInt 0 | PNone => inr value
  | PStr s =>
      inr (PStr (if Nat.ltb 5 (String.length s) then substring 0 5 s ++ "[REDACTED]"
                 else "[REDACTED]"))
  | PInt _ => inl (TypeError "object of type 'int' has no len()")
  end.

(** The loop of [__str__] that fills [settings_dict], as the list of its
    entries in insertion order; [json.dumps] is not modelled. *)
Fixpoint settings_entries (keys : list string) (st : Settings)
    : PyExc + list (string * PyVal) :=
  match keys with
  | [] => inr []
  | key :: rest =>
      match _get_value_pure key st with
      | inl e => inl e
      | inr value =>
          match (if String.eqb key "vision_agent_api_key" then redact_api_key value
                 else inr value) with
          | inl e => inl e
          | inr value =>
              match settings_entries rest st with
              | inl e => inl e
              | inr entries => inr ((prop_name key, value) :: entries)
              end
          end
      end
  end.

Definition settings_dict (st : Settings) : PyExc + list (string * PyVal) :=
  settings_entries _defaults_keys st.

(** ** Sample inputs of the further properties *)

Definition upper_pdf : SourceFile :=
  {| src_parent := "/data"; src_stem := "scan"; src_suffix := ".PDF";
     src_exists := true; src_num_pages := 3 |}.


Definition mixed_chunk : Chunk :=
  {| text := "para"; chunk_type := text_ct; chunk_id := "p";
     grounding := [ {| page := 0; box := None |}; {| page := 0; box := Some full_box |} ] |}.

Definition ungrounded_chunk : Chunk :=
  {| text := "orphan"; chunk_type := text_ct; chunk_id := "o"; grounding := [] |}.

(** A box inside [0,1] with zero width and height. *)
Definition zero_box : ChunkGroundingBox := {| l := 0; t := 0; r := 0; b := 0 |}.

Definition zero_box_chunk : Chunk :=
  {| text := "dot"; chunk_type := text_ct; chunk_id := "z";
     grounding := [ {| page := 0; box := Some zero_box |} ] |}.

(** The environment sets [VA_RETRY_LOGGING_STYLE] to a value that is not
    a style. *)
Definition loud_style_settings : Settings :=
  settings_init (<["VA_RETRY_LOGGING_STYLE" := "loud"]> ∅) ∅.

Definition failed_attempt : RetryCallState :=
  mkRetryCallState 2 (Some (Failed (TransportError "reset"))) None.

(** * Properties of the modelled code *)

Example split_five_by_two :
  snd (split_pdf (sample_pdf 5) "/out" 2) =
  inr [ {| file_path := "/out/report_1.pdf"; start_page_idx := 0; end_page_idx := 1 |};
        {| file_path := "/out/report_2.pdf"; start_page_idx := 2; end_page_idx := 3 |};
        {| file_path := "/out/report_3.pdf"; start_page_idx := 4; end_page_idx := 4 |} ].
Proof. reflexivity. Qed.

(** *** Lemmas on the split loop *)

Lemma py_range_from_past (fuel : nat) (start stop step : Z) :
  stop <= start -> py_range_from fuel start stop step = [].
Proof.
  intros H. destruct fuel as [|f]; simpl; [reflexivity|].
  destruct (Z.ltb_spec start stop); [lia | reflexivity].
Qed.

Lemma split_loop_ranges (T s : Z) (stem dir : string) (starts : list Z) :
  forall fc : Z,
  map doc_range (snd (split_loop T s stem dir fc starts)) =
  map (fun st => (st, Z.min (st + s - 1) (T - 1))) starts.
Proof.
  induction starts as [|st rest IH]; intros fc; simpl; [reflexivity|].
  specialize (IH (fc + 1)).
  destruct (split_loop T s stem dir (fc + 1) rest) as [evs docs] eqn:E.
  simpl in *. f_equal. exact IH.
Qed.

Lemma split_starts_cover (T s : Z) (Hs : 1 <= s) :
  forall (fuel : nat) (start : Z), start <= T -> T - start <= Z.of_nat fuel ->
  covers start T (map (fun st => (st, Z.min (st + s - 1) (T - 1)))
                      (py_range_from fuel start T s)).
Proof.
  induction fuel as [|f IH]; intros start Hle Hfuel; simpl.
  - lia.
  - destruct (Z.ltb_spec start T) as [Hlt|Hge]; simpl; [|lia].
    split; [reflexivity|]. split; [lia|].
    destruct (Z.le_gt_cases (start + s) T) as [Hin|Hout].
    + replace (Z.min (start + s - 1) (T - 1) + 1) with (start + s) by lia.
      apply IH; lia.
    + rewrite py_range_from_past by lia. simpl. lia.
Qed.

Lemma split_starts_length (T s : Z) (Hs : 1 <= s) :
  forall (fuel : nat) (start : Z), start <= T -> T - start <= Z.of_nat fuel ->
  Z.of_nat (length (py_range_from fuel start T s)) = (T - start + s - 1) / s.
Proof.
  induction fuel as [|f IH]; intros start Hle Hfuel; simpl.
  - replace (T - start + s - 1) with (s - 1) by lia.
    rewrite Z.div_small by lia. reflexivity.
  - destruct (Z.ltb_spec start T) as [Hlt|Hge]; simpl.
    + destruct (Z.le_gt_cases (start + s) T) as [Hin|Hout].
      * rewrite Nat2Z.inj_succ, IH by lia.
        replace (T - start + s - 1) with ((T - (start + s) + s - 1) + 1 * s) by lia.
        rewrite Z.div_add by lia. lia.
      * rewrite py_range_from_past by lia. simpl.
        change (Z.of_nat 1) with 1.
        apply Z.div_unique with (r := T - start - 1); lia.
    + replace (T - start + s - 1) with (s - 1) by lia.
      rewrite Z.div_small by lia. reflexivity.
Qed.

(** C1: on an existing PDF of [N >= 1] pages and a split size [0 < s <= 2],
    [split_pdf] returns [ceil(N/s)] parts whose inclusive page ranges, in
    order, are non-empty, consecutive and tile [0, N-1] without gap or
    overlap, each spanning at most [s] pages; a 5-page PDF split by 2 gives
    the ranges [0,1], [2,3], [4,4]. *)
Theorem split_pdf_parts_cover (src : SourceFile) (output_dir : string) (split_size : Z)
    (Hexists : src_exists src = true) (Hpdf : src_suffix src = ".pdf")
    (Hpages : (1 <= src_num_pages src)%nat) (Hsize : 0 < split_size <= 2) :
  (exists docs : list Document,
     snd (split_pdf src output_dir split_size) = inr docs /\
     Z.of_nat (length docs) =
       (Z.of_nat (src_num_pages src) + split_size - 1) / split_size /\
     covers 0 (Z.of_nat (src_num_pages src)) (map doc_range docs) /\
     Forall (fun d => end_page_idx d - start_page_idx d + 1 <= split_size) docs) /\
  match snd (split_pdf (sample_pdf 5) output_dir 2) with
  | inr docs5 => map doc_range docs5 = [(0, 1); (2, 3); (4, 4)]
  | inl _ => False
  end.
Proof.
  split; [|reflexivity].
  unfold split_pdf. rewrite Hexists, Hpdf. simpl.
  destruct (Z.ltb_spec 0 split_size); [|lia].
  destruct (Z.leb_spec split_size 2); [|lia]. simpl.
  set (T := Z.of_nat (src_num_pages src)).
  pose proof (split_loop_ranges T split_size (src_stem src) output_dir
                (py_range_step 0 T split_size) 1) as Hr.
  destruct (split_loop T split_size (src_stem src) output_dir 1
              (py_range_step 0 T split_size)) as [evs docs] eqn:E.
  simpl in Hr. exists docs. split; [reflexivity|].
  unfold py_range_step in Hr.
  assert (HT : 1 <= T) by (unfold T; lia).
  split; [|split].
  - rewrite <- length_map with (f := doc_range), Hr, length_map.
    unfold py_range_step. rewrite split_starts_length by (rewrite ?Z2Nat.id; lia).
    f_equal. lia.
  - rewrite Hr. apply split_starts_cover; [lia|lia|rewrite Z2Nat.id; lia].
  - apply Forall_forall. intros d Hd. apply list_elem_of_In in Hd.
    assert (Hin : In (doc_range d) (map doc_range docs)) by (apply in_map; exact Hd).
    rewrite Hr in Hin. apply in_map_iff in Hin as [st [Heq _]].
    unfold doc_range in Heq. injection Heq as <- <-. lia.
Qed.

(** Witness of C1 on a 7-page PDF split by 2. *)
Lemma split_pdf_parts_cover_witness :
  src_exists (sample_pdf 7) = true /\ src_suffix (sample_pdf 7) = ".pdf" /\
  (1 <= src_num_pages (sample_pdf 7))%nat /\ 0 < 2 <= 2 /\
  ((exists docs : list Document,
     snd (split_pdf (sample_pdf 7) "/out" 2) = inr docs /\
     Z.of_nat (length docs) = (Z.of_nat (src_num_pages (sample_pdf 7)) + 2 - 1) / 2 /\
     covers 0 (Z.of_nat (src_num_pages (sample_pdf 7))) (map doc_range docs) /\
     Forall (fun d => end_page_idx d - start_page_idx d + 1 <= 2) docs) /\
  match snd (split_pdf (sample_pdf 5) "/out" 2) with
  | inr docs5 => map doc_range docs5 = [(0, 1); (2, 3); (4, 4)]
  | inl _ => False
  end).
Proof.
  split; [reflexivity|]. split; [reflexivity|]. split; [simpl; lia|].
  split; [lia|].
  apply (split_pdf_parts_cover (sample_pdf 7) "/out" 2); [reflexivity|reflexivity|simpl; lia|lia].
Defined.

(** C8 (as stated): a missing source would fail with a NotFound kind of
    error ([FileNotFoundError]) and a bad split size with an InvalidInput
    kind ([ValueError]).  Both fail: [split_pdf] raises [AssertionError]
    in each case. *)
Lemma split_pdf_error_kinds_counterexample :
  snd (split_pdf missing_pdf "/out" 2) =
    inl (AssertionError "Input PDF file not found: /data/missing.pdf") /\
  (~ exists m, snd (split_pdf missing_pdf "/out" 2) = inl (FileNotFoundError m)) /\
  (~ exists m, snd (split_pdf (sample_pdf 5) "/out" 3) = inl (ValueError m)).
Proof.
  split; [reflexivity|]. split; intros [m Hm]; discriminate Hm.
Qed.

(** C8 (amended): if the source does not exist, or its suffix is not
    exactly [".pdf"], or the split size is outside [0 < s <= 2], then
    [split_pdf] raises [AssertionError] (one kind for the three conditions)
    before any file-system effect: neither the output directory nor any
    part artifact is created. *)
Theorem split_pdf_rejects_before_writing (src : SourceFile) (output_dir : string)
    (split_size : Z)
    (Hbad : src_exists src = false \/ src_suffix src <> ".pdf" \/
            ~ (0 < split_size <= 2)) :
  exists msg : string,
    split_pdf src output_dir split_size = ([], inl (AssertionError msg)).
Proof.
  unfold split_pdf.
  destruct (src_exists src) eqn:Hex; simpl; [|eexists; reflexivity].
  destruct (String.eqb_spec (src_suffix src) ".pdf") as [Hpdf|Hpdf];
    simpl; [|eexists; reflexivity].
  destruct (Z.ltb_spec 0 split_size); destruct (Z.leb_spec split_size 2);
    simpl; try (eexists; reflexivity).
  exfalso. destruct Hbad as [Hb|[Hb|Hb]]; [discriminate Hb|contradiction|lia].
Qed.

Lemma split_pdf_rejects_before_writing_witness :
  (src_exists (sample_pdf 5) = false \/ src_suffix (sample_pdf 5) <> ".pdf" \/
   ~ (0 < 3 <= 2)) /\
  exists msg : string, split_pdf (sample_pdf 5) "/out" 3 = ([], inl (AssertionError msg)).
Proof.
  assert (H : src_exists (sample_pdf 5) = false \/ src_suffix (sample_pdf 5) <> ".pdf" \/
              ~ (0 < 3 <= 2)) by (right; right; lia).
  split; [exact H|].
  apply (split_pdf_rejects_before_writing (sample_pdf 5) "/out" 3 H).
Defined.

Example crop_scenario_dims :
  match _crop_image (blank_raster 800 1000) box_scenario with
  | inr cropped => (length cropped, map (fun row => length row) (firstn 1 cropped))
  | inl _ => (0%nat, [])
  end = (320%nat, [400%nat]).
Proof. vm_compute. reflexivity. Qed.

(** *** Float rounding *)

Lemma Qround_even_comp (x y : Q) : (x == y)%Q -> Qround_even x = Qround_even y.
Proof.
  intros H. unfold Qround_even.
  assert (Hf : Qfloor x = Qfloor y) by (apply Qfloor_comp; exact H).
  rewrite Hf. rewrite H. reflexivity.
Qed.

Lemma Qround_even_Z (z : Z) : Qround_even (inject_Z z) = z.
Proof.
  unfold Qround_even. rewrite Qfloor_Z.
  assert (H0 : (inject_Z z - inject_Z z == 0)%Q) by ring.
  rewrite H0. reflexivity.
Qed.

Lemma Qround_even_bounds (y : Q) : Qfloor y <= Qround_even y <= Qfloor y + 1.
Proof.
  unfold Qround_even.
  destruct (_ ?= _)%Q; [destruct (Z.even _)|..]; lia.
Qed.

Lemma Qround_even_mono (x y : Q) : (x <= y)%Q -> Qround_even x <= Qround_even y.
Proof.
  intros Hxy.
  pose proof (Qfloor_resp_le _ _ Hxy) as Hf.
  pose proof (Qround_even_bounds x) as Bx. pose proof (Qround_even_bounds y) as By.
  destruct (Z.eq_dec (Qfloor x) (Qfloor y)) as [Heq|Hne]; [|lia].
  unfold Qround_even in *. rewrite <- Heq in *.
  set (f := Qfloor x) in *.
  assert (Hd : (x - inject_Z f <= y - inject_Z f)%Q).
  { apply Qplus_le_compat; [exact Hxy|apply Qle_refl]. }
  destruct (Z.even f);
  destruct (Qcompare_spec (x - inject_Z f) (1 # 2)) as [Ex|Ex|Ex];
  destruct (Qcompare_spec (y - inject_Z f) (1 # 2)) as [Ey|Ey|Ey];
  try lia; exfalso; lra.
Qed.

Lemma Qpow2_add (m n : Z) : (2 ^ (m + n) == 2 ^ m * 2 ^ n)%Q.
Proof. apply Qpower_plus. intros H. inversion H. Qed.

Lemma Qpow2_pos (m : Z) : (0 < 2 ^ m)%Q.
Proof. apply Qpower_0_lt. reflexivity. Qed.

Lemma Qpow2_le (m n : Z) : m <= n -> (2 ^ m <= 2 ^ n)%Q.
Proof. intros H. apply Qpower_le_compat_l; [exact H|]. discriminate. Qed.

Lemma Qpow2_le_inv (m n : Z) : (2 ^ m <= 2 ^ n)%Q -> m <= n.
Proof. intros H. apply (Qpower_le_compat_l_inv 2); [exact H|reflexivity]. Qed.

Lemma Qpow2_Z (m : Z) : 0 <= m -> (2 ^ m == inject_Z (2 ^ m))%Q.
Proof. intros H. symmetry. apply (Zpower_Qpower 2 m H). Qed.

Lemma Qpow2_shift (m n : Z) : (2 ^ m * 2 ^ n == 2 ^ (m + n))%Q.
Proof. symmetry. apply Qpow2_add. Qed.

Lemma Qlog2_floor_spec (x : Q) :
  (0 < x)%Q -> (2 ^ Qlog2_floor x <= x < 2 ^ (Qlog2_floor x + 1))%Q.
Proof.
  destruct x as [n d]. intros Hx.
  assert (Hn : 0 < n) by (unfold Qlt in Hx; simpl in Hx; lia).
  unfold Qlog2_floor. cbn [Qnum Qden].
  set (a := Z.log2 n). set (b := Z.log2 (Z.pos d)).
  destruct (Z.log2_spec n Hn) as [Na1 Na2].
  destruct (Z.log2_spec (Z.pos d) eq_refl) as [Db1 Db2].
  assert (Ha : 0 <= a) by apply Z.log2_nonneg.
  assert (Hb : 0 <= b) by apply Z.log2_nonneg.
  fold a in Na1, Na2. fold b in Db1, Db2.
  rewrite Zle_Qle, <- Qpow2_Z in Na1, Db1 by lia.
  rewrite Zlt_Qlt, <- Qpow2_Z in Na2, Db2 by lia.
  assert (HXD : ((n # d) * inject_Z (Z.pos d) == inject_Z n)%Q).
  { unfold Qeq. simpl. lia. }
  assert (HD : (0 < inject_Z (Z.pos d))%Q) by (unfold Qlt; simpl; lia).
  assert (Hup : (n # d < 2 ^ (a - b + 1))%Q).
  { apply (Qmult_lt_r _ _ _ HD). rewrite HXD.
    apply Qlt_le_trans with (2 ^ (a - b + 1) * 2 ^ b)%Q.
    - rewrite Qpow2_shift. replace (a - b + 1 + b) with (Z.succ a) by lia. exact Na2.
    - apply Qmult_le_l; [apply Qpow2_pos|exact Db1]. }
  assert (Hlo : (2 ^ (a - b - 1) < n # d)%Q).
  { apply (Qmult_lt_r _ _ _ HD). rewrite HXD.
    apply Qlt_le_trans with (2 ^ (a - b - 1) * 2 ^ (b + 1))%Q.
    - apply Qmult_lt_l; [apply Qpow2_pos|].
      replace (b + 1) with (Z.succ b) by lia. exact Db2.
    - rewrite Qpow2_shift. replace (a - b - 1 + (b + 1)) with a by lia. exact Na1. }
  destruct (Qle_bool (2 ^ (a - b)) (n # d)) eqn:Hle.
  - apply Qle_bool_iff in Hle. split; [exact Hle|exact Hup].
  - split.
    + apply Qlt_le_weak. exact Hlo.
    + replace (a - b - 1 + 1) with (a - b) by lia.
      apply Qnot_le_lt. intros H. apply Qle_bool_iff in H. congruence.
Qed.

Lemma float_exponent_upper (x : Q) : (0 < x)%Q -> (x < 2 ^ (float_exponent x + 53))%Q.
Proof.
  intros Hx. destruct (Qlog2_floor_spec x Hx) as [_ H].
  apply Qlt_le_trans with (1 := H). apply Qpow2_le. unfold float_exponent. lia.
Qed.

Lemma float_exponent_lower (x : Q) :
  (0 < x)%Q -> -1074 < float_exponent x -> (2 ^ (float_exponent x + 52) <= x)%Q.
Proof.
  intros Hx He. destruct (Qlog2_floor_spec x Hx) as [H _].
  unfold float_exponent in *.
  replace (Z.max (Qlog2_floor x - 52) (-1074) + 52) with (Qlog2_floor x) by lia.
  exact H.
Qed.

Lemma float_exponent_mono (x y : Q) :
  (0 < x)%Q -> (x <= y)%Q -> float_exponent x <= float_exponent y.
Proof.
  intros Hx Hxy.
  assert (Hy : (0 < y)%Q) by (apply Qlt_le_trans with x; assumption).
  destruct (Z.le_gt_cases (float_exponent x) (float_exponent y)) as [H|H]; [exact H|].
  exfalso.
  assert (Hl : -1074 < float_exponent x) by (unfold float_exponent in *; lia).
  pose proof (float_exponent_lower x Hx Hl) as H1.
  pose proof (float_exponent_upper y Hy) as H2.
  pose proof (Qpow2_le (float_exponent y + 53) (float_exponent x + 52) ltac:(lia)) as H3.
  apply (Qlt_irrefl x). apply Qle_lt_trans with y; [exact Hxy|].
  apply Qlt_le_trans with (1 := H2). apply Qle_trans with (1 := H3). exact H1.
Qed.

Lemma Qround_even_nonneg (y : Q) : (0 <= y)%Q -> 0 <= Qround_even y.
Proof. intros H. rewrite <- (Qround_even_Z 0). apply Qround_even_mono. exact H. Qed.

Lemma round_pos_nonneg (x : Q) : (0 <= x)%Q -> (0 <= round_pos x)%Q.
Proof.
  intros Hx. unfold round_pos.
  apply Qmult_le_0_compat; [|apply Qlt_le_weak, Qpow2_pos].
  change 0%Q with (inject_Z 0). rewrite <- Zle_Qle. apply Qround_even_nonneg.
  apply Qmult_le_0_compat; [exact Hx|apply Qlt_le_weak, Qpow2_pos].
Qed.

(** [round_pos] below and above a power of two of its binade. *)
Lemma round_pos_le_pow (x : Q) (e k : Z) :
  (0 <= x)%Q -> float_exponent x = e -> e <= k -> (x <= 2 ^ k)%Q -> (round_pos x <= 2 ^ k)%Q.
Proof.
  intros Hx He Hk Hxk. unfold round_pos. rewrite He.
  assert (Hm : Qround_even (x * 2 ^ (- e)) <= 2 ^ (k - e)).
  { rewrite <- (Qround_even_Z (2 ^ (k - e))). apply Qround_even_mono.
    rewrite <- Qpow2_Z by lia.
    replace (k - e) with (k + - e) by lia. rewrite Qpow2_add.
    apply Qmult_le_compat_r; [exact Hxk|apply Qlt_le_weak, Qpow2_pos]. }
  rewrite Zle_Qle, <- Qpow2_Z in Hm by lia.
  apply Qle_trans with (2 ^ (k - e) * 2 ^ e)%Q.
  - apply Qmult_le_compat_r; [exact Hm|apply Qlt_le_weak, Qpow2_pos].
  - rewrite Qpow2_shift. replace (k - e + e) with k by lia. apply Qle_refl.
Qed.

Lemma round_pos_ge_pow (x : Q) (e k : Z) :
  (0 <= x)%Q -> float_exponent x = e -> e <= k -> (2 ^ k <= x)%Q -> (2 ^ k <= round_pos x)%Q.
Proof.
  intros Hx He Hk Hxk. unfold round_pos. rewrite He.
  assert (Hm : 2 ^ (k - e) <= Qround_even (x * 2 ^ (- e))).
  { rewrite <- (Qround_even_Z (2 ^ (k - e))). apply Qround_even_mono.
    rewrite <- Qpow2_Z by lia.
    replace (k - e) with (k + - e) by lia. rewrite Qpow2_add.
    apply Qmult_le_compat_r; [exact Hxk|apply Qlt_le_weak, Qpow2_pos]. }
  rewrite Zle_Qle, <- Qpow2_Z in Hm by lia.
  apply Qle_trans with (2 ^ (k - e) * 2 ^ e)%Q.
  - rewrite Qpow2_shift. replace (k - e + e) with k by lia. apply Qle_refl.
  - apply Qmult_le_compat_r; [exact Hm|apply Qlt_le_weak, Qpow2_pos].
Qed.

Lemma round_pos_mono (x y : Q) : (0 < x)%Q -> (x <= y)%Q -> (round_pos x <= round_pos y)%Q.
Proof.
  intros Hx Hxy.
  assert (Hy : (0 < y)%Q) by (apply Qlt_le_trans with x; assumption).
  pose proof (float_exponent_mono x y Hx Hxy) as He.
  destruct (Z.eq_dec (float_exponent x) (float_exponent y)) as [Heq|Hne].
  - unfold round_pos. rewrite Heq.
    apply Qmult_le_compat_r; [|apply Qlt_le_weak, Qpow2_pos].
    rewrite <- Zle_Qle. apply Qround_even_mono.
    apply Qmult_le_compat_r; [exact Hxy|apply Qlt_le_weak, Qpow2_pos].
  - set (ex := float_exponent x) in *. set (ey := float_exponent y) in *.
    assert (Hl : -1074 < ey) by (unfold ey, ex, float_exponent in *; lia).
    apply Qle_trans with (2 ^ (ey + 52))%Q.
    + apply (round_pos_le_pow x ex); [apply Qlt_le_weak; exact Hx|reflexivity|lia|].
      apply Qle_trans with (2 ^ (ex + 53))%Q; [|apply Qpow2_le; lia].
      apply Qlt_le_weak, float_exponent_upper, Hx.
    + apply (round_pos_ge_pow y ey); [apply Qlt_le_weak; exact Hy|reflexivity|lia|].
      apply float_exponent_lower; assumption.
Qed.

Lemma round_double_pos (x : Q) : (0 < x)%Q -> round_double x = round_pos x.
Proof.
  intros Hx. unfold round_double.
  destruct (Qcompare_spec x 0) as [H|H|H]; [| |reflexivity]; exfalso;
    [rewrite H in Hx|apply (Qlt_irrefl x); apply Qlt_trans with 0%Q; [exact H|]];
    [discriminate Hx|exact Hx].
Qed.

Lemma round_double_zero (x : Q) : (x == 0)%Q -> round_double x = 0%Q.
Proof.
  intros Hx. unfold round_double. destruct (Qcompare_spec x 0) as [H|H|H].
  - reflexivity.
  - rewrite Hx in H. discriminate H.
  - rewrite Hx in H. discriminate H.
Qed.

Lemma round_double_nonneg (x : Q) : (0 <= x)%Q -> (0 <= round_double x)%Q.
Proof.
  intros Hx. destruct (Qle_lt_or_eq _ _ Hx) as [H|H].
  - rewrite round_double_pos by exact H. apply round_pos_nonneg. exact Hx.
  - rewrite round_double_zero by (symmetry; exact H). apply Qle_refl.
Qed.

Lemma round_double_mono (x y : Q) :
  (0 <= x)%Q -> (x <= y)%Q -> (round_double x <= round_double y)%Q.
Proof.
  intros Hx Hxy. destruct (Qle_lt_or_eq _ _ Hx) as [H|H].
  - assert (Hy : (0 < y)%Q) by (apply Qlt_le_trans with x; assumption).
    rewrite !round_double_pos by assumption. apply round_pos_mono; assumption.
  - rewrite (round_double_zero x) by (symmetry; exact H).
    apply round_double_nonneg. apply Qle_trans with x; assumption.
Qed.

(** Integers up to [2^53] are floats. *)
Lemma round_double_Z (n : Z) : 0 <= n <= 2 ^ 53 -> (round_double (inject_Z n) == inject_Z n)%Q.
Proof.
  intros Hn. destruct (Z.eq_dec n 0) as [->|Hn0]; [reflexivity|].
  assert (Hpos : (0 < inject_Z n)%Q) by (change 0%Q with (inject_Z 0); rewrite <- Zlt_Qlt; lia).
  rewrite round_double_pos by exact Hpos.
  destruct (Qlog2_floor_spec _ Hpos) as [K1 K2].
  set (k := Qlog2_floor (inject_Z n)) in *.
  assert (Hk0 : 0 <= k).
  { destruct (Z.le_gt_cases 0 k) as [H|H]; [exact H|exfalso].
    assert (H1 : (2 ^ (k + 1) <= 2 ^ 0)%Q) by (apply Qpow2_le; lia).
    apply (Qlt_irrefl (inject_Z n)). apply Qlt_le_trans with (1 := K2).
    apply Qle_trans with (1 := H1). change (2 ^ 0)%Q with (inject_Z 1).
    rewrite <- Zle_Qle. lia. }
  assert (Hk53 : k <= 53).
  { apply Qpow2_le_inv. apply Qle_trans with (1 := K1).
    rewrite Qpow2_Z by lia. rewrite <- Zle_Qle. lia. }
  assert (He : float_exponent (inject_Z n) = k - 52) by (unfold float_exponent; fold k; lia).
  unfold round_pos. rewrite He.
  destruct (Z.le_gt_cases (k - 52) 0) as [Hle|Hgt].
  - assert (Hs : (inject_Z n * 2 ^ (- (k - 52)) == inject_Z (n * 2 ^ (- (k - 52))))%Q).
    { rewrite inject_Z_mult, Qpow2_Z by lia. reflexivity. }
    rewrite (Qround_even_comp _ _ Hs), Qround_even_Z.
    rewrite inject_Z_mult, <- Qpow2_Z by lia.
    rewrite <- Qmult_assoc, Qpow2_shift. replace (- (k - 52) + (k - 52)) with 0 by lia.
    apply Qmult_1_r.
  - assert (Hk : k = 53) by lia.
    assert (Hn53 : n = 2 ^ 53).
    { apply Z.le_antisymm; [lia|]. rewrite Zle_Qle, <- Qpow2_Z by lia.
      rewrite Hk in K1. exact K1. }
    rewrite Hk. subst n. vm_compute. reflexivity.
Qed.

Lemma Qlog2_floor_unique (x : Q) (k : Z) :
  (0 < x)%Q -> (2 ^ k <= x < 2 ^ (k + 1))%Q -> Qlog2_floor x = k.
Proof.
  intros Hx [H1 H2]. destruct (Qlog2_floor_spec x Hx) as [J1 J2].
  assert (A : k < Qlog2_floor x + 1).
  { apply (Qpower_lt_compat_l_inv 2); [|reflexivity]. apply Qle_lt_trans with x; assumption. }
  assert (B : Qlog2_floor x < k + 1).
  { apply (Qpower_lt_compat_l_inv 2); [|reflexivity]. apply Qle_lt_trans with x; assumption. }
  lia.
Qed.

Lemma float_exponent_comp (x y : Q) :
  (0 < x)%Q -> (x == y)%Q -> float_exponent x = float_exponent y.
Proof.
  intros Hx Hxy.
  assert (Hy : (0 < y)%Q) by (rewrite <- Hxy; exact Hx).
  destruct (Qlog2_floor_spec y Hy) as [J1 J2].
  unfold float_exponent. rewrite (Qlog2_floor_unique x (Qlog2_floor y)); [reflexivity|exact Hx|].
  rewrite Hxy. split; assumption.
Qed.

Lemma round_pos_comp (x y : Q) : (0 < x)%Q -> (x == y)%Q -> (round_pos x == round_pos y)%Q.
Proof.
  intros Hx Hxy. unfold round_pos. rewrite (float_exponent_comp x y Hx Hxy).
  rewrite (Qround_even_comp (x * 2 ^ (- float_exponent y)) (y * 2 ^ (- float_exponent y)))
    by (rewrite Hxy; reflexivity).
  reflexivity.
Qed.

(** [round_double] depends only on the rational denoted. *)
Lemma round_double_comp (x y : Q) : (x == y)%Q -> (round_double x == round_double y)%Q.
Proof.
  intros Hxy. unfold round_double.
  assert (Hc : (y ?= 0)%Q = (x ?= 0)%Q) by (rewrite Hxy; reflexivity).
  rewrite Hc. destruct (x ?= 0)%Q eqn:Hx.
  - reflexivity.
  - apply Qopp_comp. apply round_pos_comp; [|rewrite Hxy; reflexivity].
    rewrite <- Qlt_alt in Hx. lra.
  - apply round_pos_comp; [|exact Hxy]. rewrite <- Qgt_alt in Hx. exact Hx.
Qed.

Lemma py_float_mul_comp (x y y' : Q) :
  (y == y')%Q -> (py_float_mul x y == py_float_mul x y')%Q.
Proof. intros H. unfold py_float_mul. apply round_double_comp. rewrite H. reflexivity. Qed.

(** Ints up to [2^53] convert to floats exactly. *)
Lemma py_float_of_int_small (n : Z) :
  0 <= n <= 2 ^ 53 -> exists f, py_float_of_int n = inr f /\ (f == inject_Z n)%Q.
Proof.
  intros Hn. unfold py_float_of_int.
  pose proof (round_double_Z n Hn) as Hf.
  destruct (Qle_bool (2 ^ 1024) (Qabs (round_double (inject_Z n)))) eqn:Ho.
  - exfalso. apply Qle_bool_iff in Ho. rewrite Hf in Ho.
    rewrite Qabs_pos in Ho by (change 0%Q with (inject_Z 0); rewrite <- Zle_Qle; lia).
    rewrite Qpow2_Z in Ho by lia. rewrite <- Zle_Qle in Ho.
    assert (H : 2 ^ 53 < 2 ^ 1024) by (apply Z.pow_lt_mono_r; lia). lia.
  - eexists. split; [reflexivity|exact Hf].
Qed.

(** The converted dimension of a successful [crop_bounds] is a
    non-negative float. *)
Lemma py_float_of_int_nonneg (n : Z) (f : Q) :
  0 <= n -> py_float_of_int n = inr f -> (0 <= f)%Q.
Proof.
  intros Hn H. unfold py_float_of_int in H.
  destruct (Qle_bool _ _); [discriminate H|]. injection H as <-.
  apply round_double_nonneg. change 0%Q with (inject_Z 0). rewrite <- Zle_Qle. exact Hn.
Qed.

Lemma in_unit_true (q : Q) : (0 <= q <= 1)%Q -> in_unit q = true.
Proof.
  intros [H0 H1]. unfold in_unit.
  apply andb_true_intro. split; apply Qle_bool_iff; assumption.
Qed.

(** The crop bounds of a box in [0,1] on a raster whose dimensions are
    floats (at most [2^53]): the float products of the coordinates by the
    dimensions, rounded outward, then clamped. *)
Lemma crop_bounds_exact (height width : Z) (bbox : ChunkGroundingBox) :
  box_in_unit bbox -> 0 <= height <= 2 ^ 53 -> 0 <= width <= 2 ^ 53 ->
  crop_bounds height width bbox =
    inr (Z.max 0 (Qfloor (py_float_mul (l bbox) (inject_Z width))),
         Z.max 0 (Qfloor (py_float_mul (t bbox) (inject_Z height))),
         Z.min width (Qceiling (py_float_mul (r bbox) (inject_Z width))),
         Z.min height (Qceiling (py_float_mul (b bbox) (inject_Z height)))).
Proof.
  intros (Hl & Ht & Hr & Hb) Hh Hw. unfold crop_bounds.
  rewrite (in_unit_true _ Hl), (in_unit_true _ Ht), (in_unit_true _ Hr),
    (in_unit_true _ Hb). cbn [negb andb].
  destruct (py_float_of_int_small width Hw) as [fw [-> Hfw]].
  destruct (py_float_of_int_small height Hh) as [fh [-> Hfh]].
  rewrite (Qfloor_comp _ _ (py_float_mul_comp (l bbox) _ _ Hfw)),
    (Qfloor_comp _ _ (py_float_mul_comp (t bbox) _ _ Hfh)),
    (Qceiling_comp _ _ (py_float_mul_comp (r bbox) _ _ Hfw)),
    (Qceiling_comp _ _ (py_float_mul_comp (b bbox) _ _ Hfh)).
  reflexivity.
Qed.

(** C6, as stated, does not hold: the bounds come from float products, which
    are rounded.  For the box [(0.29, 0.29, 0.51, 0.51)] on a raster of
    100 x 100 pixels, [0.29 * 100] is [28.999999999999996] and [0.51 * 100]
    is [51.0], so the bounds are [(28, 28, 51, 51)]: the claimed
    [floor (0.29 * 100)] is [29], and the exact product of the float [0.51]
    (slightly above 0.51) by 100 has ceiling [52]. *)
Lemma crop_bounds_real_product_counterexample :
  box_in_unit box_rounding /\
  crop_bounds 100 100 box_rounding = inr (28, 28, 51, 51) /\
  Qfloor ((29 # 100) * inject_Z 100) = 29 /\
  Qceiling (r box_rounding * inject_Z 100) = 52.
Proof.
  split; [unfold box_in_unit; split; [|split; [|split]]; split;
          apply Qle_bool_iff; vm_compute; reflexivity|].
  split; [|split]; vm_compute; reflexivity.
Qed.

(** C6 (amended): for a box with all coordinates (floats) in [0,1] and a
    raster whose height [h] and width [w] are at most [2^53], the crop
    bounds are [xmin = max 0 (floor (l * w))], [ymin = max 0 (floor (t * h))],
    [xmax = min w (ceil (r * w))], [ymax = min h (ceil (b * h))] where each
    product is the float product (the exact product rounded to the nearest
    float, ties to even), and the crop is the slice
    [image[ymin:ymax, xmin:xmax]]; the box (0.1, 0.1, 0.5, 0.5) on a raster
    of 800 rows and 1000 columns has bounds [x] from 100 to 500 and [y]
    from 80 to 400. *)
Theorem crop_image_float_bounds_then_clamps (image : Raster) (bbox : ChunkGroundingBox)
    (Hl : (0 <= l bbox <= 1)%Q) (Ht : (0 <= t bbox <= 1)%Q)
    (Hr : (0 <= r bbox <= 1)%Q) (Hb : (0 <= b bbox <= 1)%Q)
    (Hh : fst (img_shape image) <= 2 ^ 53) (Hw : snd (img_shape image) <= 2 ^ 53) :
  (let '(height, width) := img_shape image in
   let xmin := Z.max 0 (Qfloor (py_float_mul (l bbox) (inject_Z width))) in
   let ymin := Z.max 0 (Qfloor (py_float_mul (t bbox) (inject_Z height))) in
   let xmax := Z.min width (Qceiling (py_float_mul (r bbox) (inject_Z width))) in
   let ymax := Z.min height (Qceiling (py_float_mul (b bbox) (inject_Z height))) in
   crop_bounds height width bbox = inr (xmin, ymin, xmax, ymax) /\
   _crop_image image bbox =
     inr (map (fun row => py_slice row xmin xmax) (py_slice image ymin ymax))) /\
  crop_bounds 800 1000 box_scenario = inr (100, 80, 500, 400).
Proof.
  split; [|vm_compute; reflexivity].
  assert (Hdims : 0 <= fst (img_shape image) /\ 0 <= snd (img_shape image)).
  { unfold img_shape. destruct image; simpl; lia. }
  unfold _crop_image. destruct (img_shape image) as [height width]. simpl in Hh, Hw, Hdims.
  assert (Hcb := crop_bounds_exact height width bbox (conj Hl (conj Ht (conj Hr Hb)))
                   ltac:(lia) ltac:(lia)).
  split; [exact Hcb|]. rewrite Hcb. reflexivity.
Qed.

Lemma crop_image_float_bounds_then_clamps_witness :
  (0 <= l box_scenario <= 1)%Q /\ (0 <= t box_scenario <= 1)%Q /\
  (0 <= r box_scenario <= 1)%Q /\ (0 <= b box_scenario <= 1)%Q /\
  fst (img_shape (blank_raster 2 4)) <= 2 ^ 53 /\ snd (img_shape (blank_raster 2 4)) <= 2 ^ 53 /\
  _crop_image (blank_raster 2 4) box_scenario =
    inr (map (fun row => py_slice row 0 2) (py_slice (blank_raster 2 4) 0 1)).
Proof.
  assert (H1 : (0 <= l box_scenario <= 1)%Q) by (split; apply Qle_bool_iff; vm_compute; reflexivity).
  assert (H2 : (0 <= r box_scenario <= 1)%Q) by (split; apply Qle_bool_iff; vm_compute; reflexivity).
  assert (Hh : fst (img_shape (blank_raster 2 4)) <= 2 ^ 53) by (apply Z.leb_le; vm_compute; reflexivity).
  assert (Hw : snd (img_shape (blank_raster 2 4)) <= 2 ^ 53) by (apply Z.leb_le; vm_compute; reflexivity).
  split; [exact H1|]. split; [exact H1|]. split; [exact H2|]. split; [exact H2|].
  split; [exact Hh|]. split; [exact Hw|].
  destruct (crop_image_float_bounds_then_clamps (blank_raster 2 4) box_scenario
              H1 H1 H2 H2 Hh Hw) as [[_ Hc] _].
  vm_compute in Hc. exact Hc.
Defined.

(** C7 at the failing input: the crop of the chunk's second grounding, whose
    page is 1 and which is saved under [page_1], is taken from the raster of
    page 0 (the chunk's first grounding page), not from page 1's raster. *)
Theorem save_groundings_crops_first_grounding_page :
  save_groundings_as_images (PdfSource two_page_pdf) [two_page_chunk] "out" =
    ([("out/page_0/c_0.png", [[0]]); ("out/page_1/c_1.png", [[0]])], None) /\
  page_to_image two_page_pdf 1 = inr [[1]] /\
  _crop_image [[1]] full_box = inr [[1]].
Proof. split; [|split]; vm_compute; reflexivity. Qed.

Example set_batch_size_rejects :
  snd (set_batch_size (PInt 50) (settings_init ∅ ∅)) =
  inl (ValueError ("Batch size * max workers must be less than 200." ++
                   " Please reduce the batch size or max workers." ++
                   " Current settings: batch_size=50, max_workers=5")).
Proof. vm_compute. reflexivity. Qed.

(** C3 at the failing input: with [VA_BATCH_SIZE=100] and
    [VA_MAX_WORKERS=100] in the environment, [Settings()] is constructed and
    both values are read back without any error although 100 * 100 exceeds
    the ceiling of 200, whereas the setter path rejects 100 * 5. *)
Theorem settings_env_bypasses_ceiling :
  let st := settings_init (env_two "VA_BATCH_SIZE" "100" "VA_MAX_WORKERS" "100") ∅ in
  _get_value "batch_size" st = (st, inr (PInt 100)) /\
  _get_value "max_workers" st = (st, inr (PInt 100)) /\
  _MAX_PARALLEL_TASKS < 100 * 100 /\
  (exists msg, snd (set_batch_size (PInt 100) (settings_init ∅ ∅)) = inl (ValueError msg)).
Proof.
  split; [vm_compute; reflexivity|]. split; [vm_compute; reflexivity|].
  split; [unfold _MAX_PARALLEL_TASKS; lia|].
  eexists. vm_compute. reflexivity.
Qed.

Lemma set_value_unfold (key : string) (value v : PyVal) (st : Settings) :
  _validate_value key value = inr v ->
  _set_value key value st = _run_validation_checks (store_user_value key v st).
Proof. intros Hv. unfold _set_value, sm_bind, sm_lift. rewrite Hv. reflexivity. Qed.

Lemma get_value_stored (key : string) (v : PyVal) (st : Settings) :
  _get_value_pure key (store_user_value key v st) = inr v.
Proof. unfold _get_value_pure, store_user_value. simpl. rewrite lookup_insert_eq. reflexivity. Qed.

Lemma get_value_stored_other (key other : string) (v : PyVal) (st : Settings) :
  key <> other ->
  _get_value_pure other (store_user_value key v st) = _get_value_pure other st.
Proof.
  intros Hne. unfold _get_value_pure, store_user_value. simpl.
  rewrite lookup_insert_ne by congruence. reflexivity.
Qed.

(** The product check of [_run_validation_checks] fires whenever the two
    values read multiply past the ceiling. *)
Lemma run_checks_over_ceiling (st : Settings) (bs mw : Z) :
  _get_value_pure "batch_size" st = inr (PInt bs) ->
  _get_value_pure "max_workers" st = inr (PInt mw) ->
  _MAX_PARALLEL_TASKS < bs * mw ->
  exists msg, _run_validation_checks st = (st, inl (ValueError msg)).
Proof.
  intros Hb Hm Hover.
  unfold _run_validation_checks, sm_bind, _get_value at 1 2. rewrite Hb, Hm.
  simpl. destruct (Z.ltb_spec _MAX_PARALLEL_TASKS (bs * mw)); [|lia].
  eexists. reflexivity.
Qed.

(** C10: when the [batch_size] or [max_workers] setter raises [ValueError]
    because the product with the other value exceeds 200, the rejected
    value has already been stored in [_user_values], and reading the
    property afterwards returns the rejected value. *)
Theorem setter_keeps_rejected_value (key other : string) (value : PyVal) (n w : Z)
    (st : Settings)
    (Hkeys : (key = "batch_size" /\ other = "max_workers") \/
             (key = "max_workers" /\ other = "batch_size"))
    (Hv : _validate_value key value = inr (PInt n))
    (Hw : _get_value_pure other st = inr (PInt w))
    (Hover : _MAX_PARALLEL_TASKS < n * w) :
  let '(st', res) := _set_value key value st in
  (exists msg, res = inl (ValueError msg)) /\
  _user_values st' !! key = Some (PInt n) /\
  _get_value_pure key st' = inr (PInt n).
Proof.
  rewrite (set_value_unfold key value (PInt n) st Hv).
  set (st1 := store_user_value key (PInt n) st).
  assert (Hk : _get_value_pure key st1 = inr (PInt n)) by apply get_value_stored.
  assert (Ho : _get_value_pure other st1 = inr (PInt w)).
  { unfold st1. rewrite get_value_stored_other; [exact Hw|].
    destruct Hkeys as [[-> ->]|[-> ->]]; discriminate. }
  assert (Hraise : exists msg, _run_validation_checks st1 = (st1, inl (ValueError msg))).
  { destruct Hkeys as [[-> ->]|[-> ->]].
    - apply run_checks_over_ceiling with n w; assumption.
    - apply run_checks_over_ceiling with w n; [assumption|assumption|lia]. }
  destruct Hraise as [msg Hr]. rewrite Hr.
  split; [eexists; reflexivity|]. split; [|exact Hk].
  unfold st1, store_user_value. simpl. apply lookup_insert_eq.
Qed.

Lemma setter_keeps_rejected_value_witness :
  _get_value_pure "batch_size" (settings_init ∅ ∅) = inr (PInt 4) /\
  let '(st', res) := _set_value "batch_size" (PInt 50) (settings_init ∅ ∅) in
  (exists msg, res = inl (ValueError msg)) /\
  _user_values st' !! "batch_size" = Some (PInt 50) /\
  _get_value_pure "batch_size" st' = inr (PInt 50).
Proof.
  split; [vm_compute; reflexivity|].
  apply (setter_keeps_rejected_value "batch_size" "max_workers" (PInt 50) 50 5
           (settings_init ∅ ∅)).
  - left. split; reflexivity.
  - vm_compute. reflexivity.
  - vm_compute. reflexivity.
  - unfold _MAX_PARALLEL_TASKS. lia.
Defined.

Lemma log_retry_failure_total (style : string) (rs : RetryCallState) :
  valid_style style -> exists ds, log_retry_failure style rs = inr ds.
Proof.
  intros Hs. unfold log_retry_failure.
  destruct (outcome rs) as [[p|e]|]; [eexists; reflexivity| |eexists; reflexivity].
  destruct Hs as [ -> | [ -> | -> ] ]; simpl; eexists; reflexivity.
Qed.

Lemma retry_from_control_hook_independent (wait : nat -> Z) (request : nat -> Outcome)
    (after1 after2 : RetryCallState -> PyExc + list Diag) :
  (forall rs, exists ds, after1 rs = inr ds) ->
  (forall rs, exists ds, after2 rs = inr ds) ->
  forall remaining attempt,
  control (retry_from wait request after1 remaining attempt) =
  control (retry_from wait request after2 remaining attempt).
Proof.
  intros H1 H2. induction remaining as [|rest IH]; intros attempt; simpl;
    destruct (request attempt) as [p|e]; try reflexivity;
    destruct (is_retryable e); try reflexivity; simpl;
    match goal with
    | |- context [after1 ?rs] =>
        destruct (H1 rs) as [d1 E1]; destruct (H2 rs) as [d2 E2]; rewrite E1, E2
    end; try reflexivity.
  specialize (IH (S attempt)). unfold control in *. simpl.
  injection IH as Ha Hs Hf. rewrite Ha, Hs, Hf. reflexivity.
Qed.

(** C9: for any two logging styles among [none], [log_msg] and
    [inline_block], and any attempt limit, backoff and sequence of request
    outcomes, the retry wrapper with [log_retry_failure] as its hook makes
    the same number of attempts, sleeps the same backoffs and produces the
    same final result or error; only the diagnostics differ. *)
Theorem retry_control_independent_of_style (max_attempts : nat) (wait : nat -> Z)
    (request : nat -> Outcome) (style1 style2 : string)
    (H1 : valid_style style1) (H2 : valid_style style2) :
  control (retry_call max_attempts wait request (log_retry_failure style1)) =
  control (retry_call max_attempts wait request (log_retry_failure style2)).
Proof.
  unfold retry_call. apply retry_from_control_hook_independent;
    intros rs; apply log_retry_failure_total; assumption.
Qed.

Example retry_three_429_then_ok :
  control (retry_call 5 (fun n => Z.of_nat n) three_429_then_ok (log_retry_failure "inline_block"))
  = (4%nat, [1; 2; 3], Success "ok") /\
  diagnostics (retry_call 5 (fun n => Z.of_nat n) three_429_then_ok
                 (log_retry_failure "inline_block"))
  = [InlineBlock 1; InlineBlock 2; InlineBlock 3].
Proof. split; vm_compute; reflexivity. Qed.

Lemma retry_control_independent_of_style_witness :
  valid_style "none" /\ valid_style "inline_block" /\
  control (retry_call 5 (fun n => Z.of_nat n) three_429_then_ok (log_retry_failure "none")) =
  control (retry_call 5 (fun n => Z.of_nat n) three_429_then_ok
             (log_retry_failure "inline_block")).
Proof.
  assert (Hn : valid_style "none") by (left; reflexivity).
  assert (Hi : valid_style "inline_block") by (right; right; reflexivity).
  split; [exact Hn|]. split; [exact Hi|].
  apply (retry_control_independent_of_style 5 (fun n => Z.of_nat n) three_429_then_ok
           "none" "inline_block" Hn Hi).
Defined.

(** C5: classification of every response or transport failure. *)
Theorem send_parsing_request_classifies (overload_5xx : Z -> bool)
    (overload_5xx_range : forall s, overload_5xx s = true -> 500 <= s <= 599)
    (exchange : HttpExchange) :
  match exchange with
  | TransportFailure msg =>
      exists e, _send_parsing_request overload_5xx exchange = inl e /\ is_retryable e = false
  | Received response =>
      let s := status_code response in
      (retryable_status overload_5xx s = true ->
         _send_parsing_request overload_5xx exchange = inl (RetryableError response)) /\
      (200 <= s < 300 -> _send_parsing_request overload_5xx exchange = inr (resp_json response)) /\
      (retryable_status overload_5xx s = false -> ~ (200 <= s < 300) ->
         exists e, _send_parsing_request overload_5xx exchange = inl e /\ is_retryable e = false)
  end.
Proof.
  destruct exchange as [msg|response]; simpl.
  - eexists. split; reflexivity.
  - set (s := status_code response).
    split; [|split].
    + intros H. rewrite H. reflexivity.
    + intros Hok. destruct (retryable_status overload_5xx s) eqn:Hr.
      * exfalso. unfold retryable_status in Hr.
        apply orb_true_iff in Hr as [Hr|Hr].
        -- apply Z.eqb_eq in Hr. lia.
        -- apply overload_5xx_range in Hr. lia.
      * destruct (Z.leb_spec 200 s); [|lia]. destruct (Z.ltb_spec s 300); [|lia].
        reflexivity.
    + intros Hr Hnot. rewrite Hr.
      destruct (Z.leb_spec 200 s); destruct (Z.ltb_spec s 300); simpl;
        try lia; eexists; split; reflexivity.
Qed.

Lemma gateway_5xx_range (s : Z) : gateway_5xx s = true -> 500 <= s <= 599.
Proof.
  unfold gateway_5xx. intros H.
  repeat (apply orb_true_iff in H as [H|H]); apply Z.eqb_eq in H; lia.
Qed.

Example send_parsing_request_429 :
  _send_parsing_request gateway_5xx (Received rate_limited) = inl (RetryableError rate_limited) /\
  exc_str (RetryableError rate_limited) = "429 - Rate limit exceeded".
Proof. split; reflexivity. Qed.

Lemma send_parsing_request_classifies_witness :
  (forall s, gateway_5xx s = true -> 500 <= s <= 599) /\
  (retryable_status gateway_5xx 429 = true ->
     _send_parsing_request gateway_5xx (Received rate_limited) =
       inl (RetryableError rate_limited)) /\
  (200 <= 429 < 300 ->
     _send_parsing_request gateway_5xx (Received rate_limited) = inr "") /\
  (retryable_status gateway_5xx 429 = false -> ~ (200 <= 429 < 300) ->
     exists e, _send_parsing_request gateway_5xx (Received rate_limited) = inl e /\
               is_retryable e = false).
Proof.
  split; [exact gateway_5xx_range|].
  exact (send_parsing_request_classifies gateway_5xx gateway_5xx_range (Received rate_limited)).
Defined.

Lemma py_range_from_unit_step (fuel : nat) (a stop : Z) :
  Z.to_nat (stop - a) = fuel ->
  py_range_from fuel a stop 1 = map (fun k => a + Z.of_nat k) (seq 0 fuel).
Proof.
  revert a. induction fuel as [|f IH]; intros a Hf; simpl; [reflexivity|].
  destruct (Z.ltb_spec a stop); [|lia].
  rewrite IH by lia. f_equal; [lia|].
  rewrite <- seq_shift, map_map. apply map_ext. intros k. lia.
Qed.

(** C4: for a part whose request ends in a terminal failure [e] (retries
    exhausted, or a non-retryable error), [_parse_doc_parts] returns a
    result for the part's page range whose chunks are exactly one error
    chunk per page [start .. end], in order, each with the error's message
    as text and one grounding on that page. *)
Theorem parse_doc_parts_terminal_failure (decode : string -> string * list Chunk)
    (doc : Document) (e : PyExc) :
  let res := _parse_doc_parts decode doc (Failed e) in
  Parsed.start_page_idx res = start_page_idx doc /\
  Parsed.end_page_idx res = end_page_idx doc /\
  Z.of_nat (length (Parsed.chunks res)) = Z.max 0 (end_page_idx doc - start_page_idx doc + 1) /\
  map (fun c => (chunk_type c, text c, map page (grounding c))) (Parsed.chunks res) =
  map (fun k => (error_ct, exc_str e, [start_page_idx doc + Z.of_nat k]))
      (seq 0 (Z.to_nat (end_page_idx doc - start_page_idx doc + 1))).
Proof.
  simpl. unfold py_range, py_range_step.
  replace (end_page_idx doc + 1 - start_page_idx doc)
    with (end_page_idx doc - start_page_idx doc + 1) by lia.
  rewrite (py_range_from_unit_step (Z.to_nat (end_page_idx doc - start_page_idx doc + 1))
             (start_page_idx doc) (end_page_idx doc + 1)) by (f_equal; lia).
  split; [reflexivity|]. split; [reflexivity|]. split.
  - rewrite !length_map, length_seq. lia.
  - rewrite !map_map. reflexivity.
Qed.

Example parse_doc_parts_error_scenario :
  map (fun c => (chunk_type c, text c, map page (grounding c)))
    (Parsed.chunks (_parse_doc_parts no_decode
               {| file_path := "/path/to/doc.pdf"; start_page_idx := 0; end_page_idx := 1 |}
               (Failed (GenericException "Test error")))) =
  [(error_ct, "Test error", [0]); (error_ct, "Test error", [1])].
Proof. reflexivity. Qed.

Example merge_two_parts :
  let m := _merge_part_results [one_chunk_part "Document 1" 0 0; one_chunk_part "Document 2" 1 1] in
  Parsed.markdown m = "# Document 1

# Document 2" /\
  Parsed.end_page_idx m = 1 /\
  map (fun c => map page (grounding c)) (Parsed.chunks m) = [[0]; [1]].
Proof. split; [|split]; reflexivity. Qed.

Lemma merge_fold_shape (ps : list Parsed.ParsedDocument) :
  forall acc : Parsed.ParsedDocument,
  let m := fold_left _merge_next_part ps acc in
  Parsed.markdown m =
    fold_left (fun md q => md ++ "

" ++ Parsed.markdown q) ps (Parsed.markdown acc) /\
  Parsed.chunks m = app (Parsed.chunks acc) (shifted_tail (Parsed.end_page_idx acc) ps) /\
  Parsed.start_page_idx m = Parsed.start_page_idx acc /\
  Parsed.end_page_idx m = List.last (map Parsed.end_page_idx (acc :: ps)) 0.
Proof.
  induction ps as [|q qs IH]; intros acc; simpl.
  - rewrite app_nil_r. repeat split; reflexivity.
  - destruct (IH (_merge_next_part acc q)) as [Hmd [Hch [Hst Hend]]].
    simpl in Hmd, Hch, Hst, Hend.
    split; [exact Hmd|]. split; [rewrite Hch, app_assoc; reflexivity|].
    split; [exact Hst|]. rewrite Hend. destruct qs; reflexivity.
Qed.

Lemma pages_before_snoc (before : list Parsed.ParsedDocument) (q : Parsed.ParsedDocument) :
  pages_before (app before [q]) = pages_before before + page_count q.
Proof.
  unfold pages_before. rewrite fold_right_app. simpl.
  induction before as [|p ps IH]; simpl; [lia|]. rewrite IH. lia.
Qed.

Lemma shifted_tail_by_counts (ps : list Parsed.ParsedDocument) :
  forall (before : list Parsed.ParsedDocument) (prev_end : Z),
  pages_before before = prev_end + 1 ->
  contiguous_from (prev_end + 1) ps ->
  shifted_tail prev_end ps = shifted_by_counts before ps.
Proof.
  induction ps as [|q qs IH]; intros before prev_end Hb Hc; simpl; [reflexivity|].
  destruct Hc as [Hq Hc]. rewrite Hb. f_equal.
  apply IH; [|exact Hc].
  rewrite pages_before_snoc, Hb. unfold page_count. lia.
Qed.

(** C2 (as stated): "every Grounding page index in part k is offset by the
    sum of page counts of parts 0..k-1" fails on parts that do not start at
    page 0: with part 0 on page 1 and part 1 on page 2, part 1's grounding
    on page 0 is offset by 2 (part 0's end page plus one) while part 0 has
    a single page. *)
Lemma merge_offset_page_counts_counterexample :
  let parts := [one_chunk_part "A" 1 1; one_chunk_part "B" 2 2] in
  map (fun c => map page (grounding c)) (Parsed.chunks (_merge_part_results parts)) =
    [[0]; [2]] /\
  pages_before [one_chunk_part "A" 1 1] = 1 /\
  [[0]; [0 + 1]] <> map (fun c => map page (grounding c))
                        (Parsed.chunks (_merge_part_results parts)).
Proof.
  split; [reflexivity|]. split; [reflexivity|].
  vm_compute. intros H. discriminate H.
Qed.

(** C2 (amended): merging [p :: ps] folds left to right from [p]: the
    markdown of each later part is appended after a blank line; the chunks
    of each later part [k] are appended with every grounding page
    re-offset by the accumulator's trailing page count, i.e. the end page
    index of part [k-1] plus one; the start page is [p]'s and the end page
    the last part's.  When the parts start at page 0 and their page ranges
    are consecutive (as [split_pdf] produces them), part [k]'s offset is
    the sum of the page counts of parts [0..k-1]. *)
Theorem merge_part_results_fold (p : Parsed.ParsedDocument) (ps : list Parsed.ParsedDocument) :
  let m := _merge_part_results (p :: ps) in
  Parsed.markdown m =
    fold_left (fun md q => md ++ "

" ++ Parsed.markdown q) ps (Parsed.markdown p) /\
  Parsed.chunks m = app (Parsed.chunks p) (shifted_tail (Parsed.end_page_idx p) ps) /\
  Parsed.start_page_idx m = Parsed.start_page_idx p /\
  Parsed.end_page_idx m = List.last (map Parsed.end_page_idx (p :: ps)) 0 /\
  (contiguous_from 0 (p :: ps) ->
     Parsed.chunks m = app (Parsed.chunks p) (shifted_by_counts [p] ps)).
Proof.
  simpl. destruct (merge_fold_shape ps p) as [Hmd [Hch [Hst Hend]]].
  split; [exact Hmd|]. split; [exact Hch|]. split; [exact Hst|].
  split; [exact Hend|].
  intros [H0 Hc]. rewrite Hch. f_equal.
  apply shifted_tail_by_counts; [|exact Hc].
  unfold pages_before, page_count. simpl. lia.
Qed.

Lemma merge_part_results_fold_witness :
  contiguous_from 0 [one_chunk_part "A" 0 1; one_chunk_part "B" 2 3; one_chunk_part "C" 4 4] /\
  Parsed.chunks (_merge_part_results
    [one_chunk_part "A" 0 1; one_chunk_part "B" 2 3; one_chunk_part "C" 4 4]) =
  app (Parsed.chunks (one_chunk_part "A" 0 1))
      (shifted_by_counts [one_chunk_part "A" 0 1]
         [one_chunk_part "B" 2 3; one_chunk_part "C" 4 4]).
Proof.
  assert (Hc : contiguous_from 0
    [one_chunk_part "A" 0 1; one_chunk_part "B" 2 3; one_chunk_part "C" 4 4])
    by (simpl; repeat split).
  split; [exact Hc|].
  destruct (merge_part_results_fold (one_chunk_part "A" 0 1)
              [one_chunk_part "B" 2 3; one_chunk_part "C" 4 4]) as [_ [_ [_ [_ Hk]]]].
  exact (Hk Hc).
Defined.

(** ** Further properties of [utils.py] *)

(** *** Helper lemmas *)

Lemma split_loop_events (T s : Z) (stem dir : string) (starts : list Z) :
  forall fc : Z,
  fst (split_loop T s stem dir fc starts) =
  map (fun d => WritePdf (file_path d) (py_range (start_page_idx d) (end_page_idx d + 1)))
      (snd (split_loop T s stem dir fc starts)).
Proof.
  induction starts as [|st rest IH]; intros fc; simpl; [reflexivity|].
  specialize (IH (fc + 1)).
  destruct (split_loop T s stem dir (fc + 1) rest) as [evs docs] eqn:E.
  simpl in *. rewrite IH.
  replace (Z.min (st + s - 1) (T - 1) + 1) with (Z.min (st + s) T) by lia.
  reflexivity.
Qed.

Lemma split_loop_paths (T s : Z) (stem dir : string) (starts : list Z) :
  forall n : nat,
  map file_path (snd (split_loop T s stem dir (Z.of_nat n) starts)) =
  map (fun k => path_join dir (stem ++ "_" ++ Z_to_string (Z.of_nat k) ++ ".pdf"))
      (seq n (length starts)).
Proof.
  induction starts as [|st rest IH]; intros n; simpl; [reflexivity|].
  specialize (IH (S n)). rewrite Nat2Z.inj_succ, <- Z.add_1_r in IH.
  destruct (split_loop T s stem dir (Z.of_nat n + 1) rest) as [evs docs] eqn:E.
  simpl in *. rewrite IH. reflexivity.
Qed.

Lemma Qfloor_Qceiling_le (x : Q) : Qfloor x <= Qceiling x.
Proof.
  rewrite Zle_Qle. apply Qle_trans with x; [apply Qfloor_le | apply Qle_ceiling].
Qed.

Lemma float_scaled_floor_le (q fw : Q) (w : Z) :
  (0 <= q <= 1)%Q -> (fw == inject_Z w)%Q -> 0 <= w <= 2 ^ 53 ->
  Qfloor (py_float_mul q fw) <= w.
Proof.
  intros [Hq0 Hq1] Hfw Hw.
  assert (Hw0 : (0 <= inject_Z w)%Q)
    by (change 0%Q with (inject_Z 0); rewrite <- Zle_Qle; lia).
  rewrite <- (Qfloor_Z w). apply Qfloor_resp_le.
  rewrite <- (round_double_Z w Hw). unfold py_float_mul. apply round_double_mono.
  - rewrite Hfw. apply Qmult_le_0_compat; assumption.
  - rewrite Hfw. rewrite <- (Qmult_1_l (inject_Z w)) at 2.
    apply Qmult_le_compat_r; assumption.
Qed.

Lemma float_scaled_ceiling_nonneg (q fw : Q) :
  (0 <= q)%Q -> (0 <= fw)%Q -> 0 <= Qceiling (py_float_mul q fw).
Proof.
  intros Hq Hfw.
  change 0 with (Qceiling 0). apply Qceiling_resp_le.
  apply round_double_nonneg. apply Qmult_le_0_compat; assumption.
Qed.

Lemma float_scaled_floor_le_ceiling (q1 q2 fw : Q) :
  (0 <= q1)%Q -> (q1 <= q2)%Q -> (0 <= fw)%Q ->
  Qfloor (py_float_mul q1 fw) <= Qceiling (py_float_mul q2 fw).
Proof.
  intros Hq1 Hq Hfw.
  apply Z.le_trans with (Qfloor (py_float_mul q2 fw)); [|apply Qfloor_Qceiling_le].
  apply Qfloor_resp_le. apply round_double_mono.
  - apply Qmult_le_0_compat; assumption.
  - apply Qmult_le_compat_r; assumption.
Qed.

Lemma in_unit_spec (q : Q) : in_unit q = true -> (0 <= q <= 1)%Q.
Proof.
  unfold in_unit. intros H. apply andb_true_iff in H as [H0 H1].
  split; apply Qle_bool_iff; assumption.
Qed.

(** A successful [crop_bounds] on non-negative dimensions: the lower
    bounds are non-negative and the upper bounds lie in the raster. *)
Lemma crop_bounds_range (height width : Z) (bbox : ChunkGroundingBox)
    (xmin ymin xmax ymax : Z) :
  0 <= height -> 0 <= width ->
  crop_bounds height width bbox = inr (xmin, ymin, xmax, ymax) ->
  0 <= xmin /\ 0 <= xmax <= width /\ 0 <= ymin /\ 0 <= ymax <= height.
Proof.
  intros Hh Hw Hc. unfold crop_bounds in Hc.
  destruct (in_unit (l bbox)) eqn:Hl; [|discriminate].
  destruct (in_unit (t bbox)) eqn:Ht; [|discriminate].
  destruct (in_unit (r bbox)) eqn:Hr; [|discriminate].
  destruct (in_unit (b bbox)) eqn:Hb; [|discriminate].
  cbn [negb andb] in Hc.
  destruct (py_float_of_int width) as [e|fw] eqn:Ew; [discriminate Hc|].
  destruct (py_float_of_int height) as [e|fh] eqn:Eh; [discriminate Hc|].
  injection Hc as <- <- <- <-.
  apply in_unit_spec in Hl, Ht, Hr, Hb.
  pose proof (py_float_of_int_nonneg _ _ Hw Ew) as Hfw.
  pose proof (py_float_of_int_nonneg _ _ Hh Eh) as Hfh.
  pose proof (float_scaled_ceiling_nonneg (r bbox) fw (proj1 Hr) Hfw).
  pose proof (float_scaled_ceiling_nonneg (b bbox) fh (proj1 Hb) Hfh).
  lia.
Qed.

(** On dimensions that are floats, the lower bounds also lie in the
    raster, and the bounds are ordered when the coordinates are. *)
Lemma crop_bounds_lower_inside (height width : Z) (bbox : ChunkGroundingBox)
    (xmin ymin xmax ymax : Z) :
  0 <= height <= 2 ^ 53 -> 0 <= width <= 2 ^ 53 ->
  crop_bounds height width bbox = inr (xmin, ymin, xmax, ymax) ->
  xmin <= width /\ ymin <= height /\
  ((l bbox <= r bbox)%Q -> xmin <= xmax) /\ ((t bbox <= b bbox)%Q -> ymin <= ymax).
Proof.
  intros Hh Hw Hc.
  assert (Hbox : box_in_unit bbox).
  { unfold crop_bounds in Hc.
    destruct (in_unit (l bbox)) eqn:Hl; [|discriminate].
    destruct (in_unit (t bbox)) eqn:Ht; [|discriminate].
    destruct (in_unit (r bbox)) eqn:Hr; [|discriminate].
    destruct (in_unit (b bbox)) eqn:Hb; [|discriminate].
    apply in_unit_spec in Hl, Ht, Hr, Hb. repeat split; apply Hl || apply Ht || apply Hr || apply Hb. }
  rewrite (crop_bounds_exact height width bbox Hbox Hh Hw) in Hc.
  injection Hc as <- <- <- <-. destruct Hbox as (Hl & Ht & Hr & Hb).
  assert (Hw0 : (0 <= inject_Z width)%Q)
    by (change 0%Q with (inject_Z 0); rewrite <- Zle_Qle; lia).
  assert (Hh0 : (0 <= inject_Z height)%Q)
    by (change 0%Q with (inject_Z 0); rewrite <- Zle_Qle; lia).
  pose proof (float_scaled_floor_le (l bbox) (inject_Z width) width Hl (Qeq_refl _) Hw).
  pose proof (float_scaled_floor_le (t bbox) (inject_Z height) height Ht (Qeq_refl _) Hh).
  pose proof (float_scaled_ceiling_nonneg (r bbox) _ (proj1 Hr) Hw0).
  pose proof (float_scaled_ceiling_nonneg (b bbox) _ (proj1 Hb) Hh0).
  split; [lia|]. split; [lia|]. split.
  - intros Hlr. pose proof (float_scaled_floor_le_ceiling _ _ _ (proj1 Hl) Hlr Hw0). lia.
  - intros Htb. pose proof (float_scaled_floor_le_ceiling _ _ _ (proj1 Ht) Htb Hh0). lia.
Qed.

Lemma py_slice_in_range {A} (xs : list A) (a c : Z) :
  0 <= a -> 0 <= c <= Z.of_nat (length xs) ->
  py_slice xs a c = take (Z.to_nat (c - a)) (drop (Z.to_nat a) xs).
Proof.
  intros Ha Hc. unfold py_slice, py_slice_index.
  destruct (Z.ltb_spec a 0); [lia|]. destruct (Z.ltb_spec c 0); [lia|].
  rewrite (Z.min_l c) by lia.
  destruct (Z.le_gt_cases a (Z.of_nat (length xs))) as [Hle|Hgt].
  - rewrite (Z.min_l a) by lia. reflexivity.
  - rewrite (Z.min_r a) by lia. rewrite !drop_ge by lia. rewrite !take_nil. reflexivity.
Qed.

Lemma take_drop_length {A} (xs : list A) (a n : nat) :
  (n = 0 \/ a + n <= length xs)%nat -> length (take n (drop a xs)) = n.
Proof. intros H. rewrite length_take, length_drop. lia. Qed.

Lemma take_drop_lookup {A} (xs : list A) (a n i : nat) :
  (i < n)%nat -> take n (drop a xs) !! i = xs !! (a + i)%nat.
Proof. intros H. rewrite lookup_take_lt by exact H. apply lookup_drop. Qed.

Lemma img_shape_nonneg (img : Raster) :
  0 <= fst (img_shape img) /\ 0 <= snd (img_shape img).
Proof. unfold img_shape. destruct img; simpl; lia. Qed.

Lemma crop_image_ok (img : Raster) (bx : ChunkGroundingBox) :
  box_in_unit bx -> fst (img_shape img) <= 2 ^ 53 -> snd (img_shape img) <= 2 ^ 53 ->
  exists cropped, _crop_image img bx = inr cropped.
Proof.
  intros Hbox Hh Hw. pose proof (img_shape_nonneg img) as Hn. unfold _crop_image.
  destruct (img_shape img) as [height width]. simpl in Hh, Hw, Hn.
  rewrite (crop_bounds_exact height width bx Hbox ltac:(lia) ltac:(lia)).
  eexists. reflexivity.
Qed.


Lemma group_by_first_page_missing (chunks : list Chunk) :
  forall (groups : list (Z * list Chunk)) (c : Chunk),
  In c chunks -> is_error (chunk_type c) = false -> grounding c = [] ->
  group_by_first_page chunks groups = inl (IndexError "list index out of range").
Proof.
  induction chunks as [|c' rest IH]; intros groups c Hin Hkind Hg; [destruct Hin|].
  simpl. destruct Hin as [<-|Hin].
  - rewrite Hkind, Hg. reflexivity.
  - destruct (is_error (chunk_type c')); [apply (IH _ c); assumption|].
    destruct (py_index (grounding c') 0) as [e|g0] eqn:Hi.
    + unfold py_index in Hi. destruct (grounding c') as [|g gs]; simpl in Hi.
      * injection Hi as <-. reflexivity.
      * discriminate Hi.
    + apply (IH _ c); assumption.
Qed.

(** *** [get_file_type] against [split_pdf] *)

(** [get_file_type] compares the lower-cased suffix with [".pdf"], while
    [split_pdf] asserts the suffix is exactly [".pdf"]: an existing file
    whose suffix is [".PDF"], [".Pdf"] and the like is classified as a PDF
    by the first and rejected with [AssertionError] by the second, before
    any file-system effect. *)
Theorem get_file_type_pdf_rejected_by_split (src : SourceFile) (output_dir : string)
    (split_size : Z)
    (Hexists : src_exists src = true)
    (Hlower : str_lower (src_suffix src) = ".pdf") (Hcase : src_suffix src <> ".pdf") :
  get_file_type src = pdf_file /\
  split_pdf src output_dir split_size = ([], inl (AssertionError "Input file must be a PDF")).
Proof.
  split.
  - unfold get_file_type. rewrite Hlower. reflexivity.
  - unfold split_pdf. rewrite Hexists. simpl.
    destruct (String.eqb_spec (src_suffix src) ".pdf"); [contradiction|reflexivity].
Qed.


Lemma get_file_type_pdf_rejected_by_split_witness :
  src_exists upper_pdf = true /\ str_lower (src_suffix upper_pdf) = ".pdf" /\
  src_suffix upper_pdf <> ".pdf" /\
  get_file_type upper_pdf = pdf_file /\
  split_pdf upper_pdf "/out" 2 = ([], inl (AssertionError "Input file must be a PDF")).
Proof.
  assert (Hl : str_lower (src_suffix upper_pdf) = ".pdf") by reflexivity.
  assert (Hc : src_suffix upper_pdf <> ".pdf") by discriminate.
  split; [reflexivity|]. split; [exact Hl|]. split; [exact Hc|].
  apply (get_file_type_pdf_rejected_by_split upper_pdf "/out" 2 eq_refl Hl Hc).
Defined.

(** *** Part artifacts written by [split_pdf] *)

(** Whenever [split_pdf] returns parts, its file-system effects are the
    creation of the output directory followed by one write per returned
    part, in order, of the pages [start_page_idx .. end_page_idx] of that
    part to its [file_path]; the [k]-th part (from 1) is
    [os.path.join(output_dir, f"{stem}_{k}.pdf")]. *)
Theorem split_pdf_writes_each_part (src : SourceFile) (output_dir : string)
    (split_size : Z) (docs : list Document)
    (Hok : snd (split_pdf src output_dir split_size) = inr docs) :
  fst (split_pdf src output_dir split_size) =
    Mkdir output_dir ::
    map (fun d => WritePdf (file_path d) (py_range (start_page_idx d) (end_page_idx d + 1)))
        docs /\
  map file_path docs =
    map (fun k => path_join output_dir
                    (src_stem src ++ "_" ++ Z_to_string (Z.of_nat k) ++ ".pdf"))
        (seq 1 (length docs)).
Proof.
  unfold split_pdf in *.
  destruct (src_exists src); simpl in *; [|discriminate Hok].
  destruct (String.eqb (src_suffix src) ".pdf"); simpl in *; [|discriminate Hok].
  destruct ((0 <? split_size) && (split_size <=? 2))%bool; simpl in *; [|discriminate Hok].
  set (T := Z.of_nat (src_num_pages src)) in *.
  set (starts := py_range_step 0 T split_size) in *.
  pose proof (split_loop_events T split_size (src_stem src) output_dir starts 1) as Hev.
  pose proof (split_loop_paths T split_size (src_stem src) output_dir starts 1) as Hp.
  assert (Hlen : forall fc, length (snd (split_loop T split_size (src_stem src) output_dir fc starts))
                            = length starts).
  { clear. induction starts as [|st rest IH]; intros fc; simpl; [reflexivity|].
    specialize (IH (fc + 1)).
    destruct (split_loop T split_size (src_stem src) output_dir (fc + 1) rest); simpl in *.
    f_equal. exact IH. }
  specialize (Hlen 1).
  change (Z.of_nat 1) with 1 in Hp.
  destruct (split_loop T split_size (src_stem src) output_dir 1 starts) as [evs ds].
  simpl in *. injection Hok as <-.
  split; [rewrite Hev; reflexivity|]. rewrite Hp, Hlen. reflexivity.
Qed.

Lemma split_pdf_writes_each_part_witness :
  snd (split_pdf (sample_pdf 5) "out/" 2) =
    inr [ {| file_path := "out/report_1.pdf"; start_page_idx := 0; end_page_idx := 1 |};
          {| file_path := "out/report_2.pdf"; start_page_idx := 2; end_page_idx := 3 |};
          {| file_path := "out/report_3.pdf"; start_page_idx := 4; end_page_idx := 4 |} ] /\
  fst (split_pdf (sample_pdf 5) "out/" 2) =
    Mkdir "out/" ::
    map (fun d => WritePdf (file_path d) (py_range (start_page_idx d) (end_page_idx d + 1)))
      [ {| file_path := "out/report_1.pdf"; start_page_idx := 0; end_page_idx := 1 |};
        {| file_path := "out/report_2.pdf"; start_page_idx := 2; end_page_idx := 3 |};
        {| file_path := "out/report_3.pdf"; start_page_idx := 4; end_page_idx := 4 |} ] /\
  map file_path
      [ {| file_path := "out/report_1.pdf"; start_page_idx := 0; end_page_idx := 1 |};
        {| file_path := "out/report_2.pdf"; start_page_idx := 2; end_page_idx := 3 |};
        {| file_path := "out/report_3.pdf"; start_page_idx := 4; end_page_idx := 4 |} ] =
    map (fun k => path_join "out/"
                    (src_stem (sample_pdf 5) ++ "_" ++ Z_to_string (Z.of_nat k) ++ ".pdf"))
        (seq 1 3).
Proof.
  assert (Hok : snd (split_pdf (sample_pdf 5) "out/" 2) =
    inr [ {| file_path := "out/report_1.pdf"; start_page_idx := 0; end_page_idx := 1 |};
          {| file_path := "out/report_2.pdf"; start_page_idx := 2; end_page_idx := 3 |};
          {| file_path := "out/report_3.pdf"; start_page_idx := 4; end_page_idx := 4 |} ])
    by reflexivity.
  split; [exact Hok|].
  apply (split_pdf_writes_each_part (sample_pdf 5) "out/" 2 _ Hok).
Defined.

(** A PDF with no pages is split into no parts: [split_pdf] only creates
    the output directory and returns the empty list. *)
Theorem split_pdf_no_pages (src : SourceFile) (output_dir : string) (split_size : Z)
    (Hexists : src_exists src = true) (Hpdf : src_suffix src = ".pdf")
    (Hsize : 0 < split_size <= 2) (Hpages : src_num_pages src = 0%nat) :
  split_pdf src output_dir split_size = ([Mkdir output_dir], inr []).
Proof.
  unfold split_pdf. rewrite Hexists, Hpdf, Hpages. simpl.
  destruct (Z.ltb_spec 0 split_size); [|lia].
  destruct (Z.leb_spec split_size 2); [|lia]. reflexivity.
Qed.

Lemma split_pdf_no_pages_witness :
  src_exists (sample_pdf 0) = true /\ src_suffix (sample_pdf 0) = ".pdf" /\
  0 < 1 <= 2 /\ src_num_pages (sample_pdf 0) = 0%nat /\
  split_pdf (sample_pdf 0) "/out" 1 = ([Mkdir "/out"], inr []).
Proof.
  split; [reflexivity|]. split; [reflexivity|]. split; [lia|]. split; [reflexivity|].
  apply (split_pdf_no_pages (sample_pdf 0) "/out" 1); [reflexivity|reflexivity|lia|reflexivity].
Defined.

(** *** Crop bounds and crops *)

(** For a box with all coordinates in [0,1] and a raster whose height and
    width are between 0 and [2^53] (so that they convert to floats
    exactly), the crop bounds always exist and lie inside the raster:
    [0 <= xmin, xmax <= width] and [0 <= ymin, ymax <= height]; when
    [l <= r] (resp. [t <= b]) the bounds are ordered, [xmin <= xmax]
    (resp. [ymin <= ymax]). *)
Theorem crop_bounds_within_raster (height width : Z) (bbox : ChunkGroundingBox)
    (Hh : 0 <= height <= 2 ^ 53) (Hw : 0 <= width <= 2 ^ 53) (Hbox : box_in_unit bbox) :
  exists xmin ymin xmax ymax,
    crop_bounds height width bbox = inr (xmin, ymin, xmax, ymax) /\
    0 <= xmin <= width /\ 0 <= xmax <= width /\ 0 <= ymin <= height /\
    0 <= ymax <= height /\
    ((l bbox <= r bbox)%Q -> xmin <= xmax) /\ ((t bbox <= b bbox)%Q -> ymin <= ymax).
Proof.
  pose proof (crop_bounds_exact height width bbox Hbox Hh Hw) as Hc.
  set (xmin := Z.max 0 (Qfloor (py_float_mul (l bbox) (inject_Z width)))) in Hc.
  set (ymin := Z.max 0 (Qfloor (py_float_mul (t bbox) (inject_Z height)))) in Hc.
  set (xmax := Z.min width (Qceiling (py_float_mul (r bbox) (inject_Z width)))) in Hc.
  set (ymax := Z.min height (Qceiling (py_float_mul (b bbox) (inject_Z height)))) in Hc.
  exists xmin, ymin, xmax, ymax. split; [exact Hc|].
  destruct (crop_bounds_range height width bbox xmin ymin xmax ymax
              ltac:(lia) ltac:(lia) Hc) as (H1 & H2 & H3 & H4).
  destruct (crop_bounds_lower_inside height width bbox xmin ymin xmax ymax Hh Hw Hc)
    as (H5 & H6 & H7 & H8).
  split; [lia|]. split; [lia|]. split; [lia|]. split; [lia|]. split; assumption.
Qed.

Lemma crop_bounds_within_raster_witness :
  0 <= 800 <= 2 ^ 53 /\ 0 <= 1000 <= 2 ^ 53 /\ box_in_unit box_scenario /\
  exists xmin ymin xmax ymax,
    crop_bounds 800 1000 box_scenario = inr (xmin, ymin, xmax, ymax) /\
    0 <= xmin <= 1000 /\ 0 <= xmax <= 1000 /\ 0 <= ymin <= 800 /\
    0 <= ymax <= 800 /\
    ((l box_scenario <= r box_scenario)%Q -> xmin <= xmax) /\
    ((t box_scenario <= b box_scenario)%Q -> ymin <= ymax).
Proof.
  assert (Hbox : box_in_unit box_scenario).
  { unfold box_in_unit.
    split; [|split; [|split]]; split; apply Qle_bool_iff; vm_compute; reflexivity. }
  assert (Hh : 0 <= 800 <= 2 ^ 53) by (split; apply Z.leb_le; vm_compute; reflexivity).
  assert (Hw : 0 <= 1000 <= 2 ^ 53) by (split; apply Z.leb_le; vm_compute; reflexivity).
  split; [exact Hh|]. split; [exact Hw|]. split; [exact Hbox|].
  apply (crop_bounds_within_raster 800 1000 box_scenario Hh Hw Hbox).
Defined.

(** On a rectangular raster (every row of width [w], at least one row),
    a successful [_crop_image] is the sub-grid between the crop bounds: it
    has [ymax - ymin] rows of [xmax - xmin] pixels each (zero when a bound
    pair is reversed), and its pixel [(i, j)] is the pixel
    [(ymin + i, xmin + j)] of the raster. *)
Theorem crop_image_subgrid (image : Raster) (w : nat) (bbox : ChunkGroundingBox)
    (cropped : Raster)
    (Hrect : Forall (fun row => length row = w) image) (Hne : image <> [])
    (Hc : _crop_image image bbox = inr cropped) :
  exists xmin ymin xmax ymax,
    crop_bounds (Z.of_nat (length image)) (Z.of_nat w) bbox = inr (xmin, ymin, xmax, ymax) /\
    length cropped = Z.to_nat (ymax - ymin) /\
    Forall (fun row => length row = Z.to_nat (xmax - xmin)) cropped /\
    forall i j : nat,
      (i < Z.to_nat (ymax - ymin))%nat -> (j < Z.to_nat (xmax - xmin))%nat ->
      (cropped !! i ≫= fun row => row !! j) =
      (image !! (Z.to_nat ymin + i)%nat ≫= fun row => row !! (Z.to_nat xmin + j)%nat).
Proof.
  assert (Hshape : img_shape image = (Z.of_nat (length image), Z.of_nat w)).
  { destruct image as [|row rows]; [congruence|].
    inversion Hrect as [|? ? Hrow _]; subst. reflexivity. }
  unfold _crop_image in Hc. rewrite Hshape in Hc.
  destruct (crop_bounds (Z.of_nat (length image)) (Z.of_nat w) bbox)
    as [e|[[[xmin ymin] xmax] ymax]] eqn:Hb; [discriminate Hc|].
  injection Hc as <-.
  destruct (crop_bounds_range _ _ _ _ _ _ _ (Nat2Z.is_nonneg _) (Nat2Z.is_nonneg _) Hb)
    as (Hx1 & Hx2 & Hy1 & Hy2).
  exists xmin, ymin, xmax, ymax. split; [reflexivity|].
  rewrite (py_slice_in_range image ymin ymax Hy1 Hy2).
  assert (Hrows : forall row, In row image -> length row = w).
  { intros row Hin. rewrite Forall_forall in Hrect. apply Hrect.
    apply list_elem_of_In. exact Hin. }
  split; [|split].
  - rewrite length_map. apply take_drop_length. lia.
  - apply Forall_forall. intros row' Hin. apply list_elem_of_In in Hin.
    apply in_map_iff in Hin as [row [<- Hin]].
    apply list_elem_of_In, elem_of_take in Hin as [k [Hk _]].
    rewrite lookup_drop in Hk. apply list_elem_of_lookup_2, list_elem_of_In in Hk.
    pose proof (Hrows row Hk) as Hw'.
    rewrite py_slice_in_range by lia. apply take_drop_length. lia.
  - intros i j Hi Hj. unfold Raster in *.
    change (map (fun row => py_slice row xmin xmax)
               (take (Z.to_nat (ymax - ymin)) (drop (Z.to_nat ymin) image)))
      with ((fun row => py_slice row xmin xmax) <$>
               (take (Z.to_nat (ymax - ymin)) (drop (Z.to_nat ymin) image))).
    rewrite list_lookup_fmap, take_drop_lookup by exact Hi.
    destruct (image !! (Z.to_nat ymin + i)%nat) as [row|] eqn:Hrow; simpl; [|reflexivity].
    apply list_elem_of_lookup_2, list_elem_of_In in Hrow.
    pose proof (Hrows row Hrow) as Hw'.
    rewrite py_slice_in_range by lia. apply take_drop_lookup. exact Hj.
Qed.

Lemma crop_image_subgrid_witness :
  Forall (fun row => length row = 1000%nat) (blank_raster 800 1000) /\
  blank_raster 800 1000 <> [] /\
  exists cropped, _crop_image (blank_raster 800 1000) box_scenario = inr cropped /\
  exists xmin ymin xmax ymax,
    crop_bounds (Z.of_nat (length (blank_raster 800 1000))) (Z.of_nat 1000) box_scenario
      = inr (xmin, ymin, xmax, ymax) /\
    length cropped = Z.to_nat (ymax - ymin) /\
    Forall (fun row => length row = Z.to_nat (xmax - xmin)) cropped /\
    forall i j : nat,
      (i < Z.to_nat (ymax - ymin))%nat -> (j < Z.to_nat (xmax - xmin))%nat ->
      (cropped !! i ≫= fun row => row !! j) =
      (blank_raster 800 1000 !! (Z.to_nat ymin + i)%nat ≫= fun row =>
         row !! (Z.to_nat xmin + j)%nat).
Proof.
  assert (Hrect : Forall (fun row => length row = 1000%nat) (blank_raster 800 1000)).
  { unfold blank_raster. apply Forall_forall. intros row Hin.
    apply list_elem_of_In, repeat_spec in Hin. subst row. apply repeat_length. }
  assert (Hne : blank_raster 800 1000 <> []) by discriminate.
  split; [exact Hrect|]. split; [exact Hne|].
  destruct (crop_image_ok (blank_raster 800 1000) box_scenario) as [cropped Hc].
  { unfold box_in_unit.
    split; [|split; [|split]]; split; apply Qle_bool_iff; vm_compute; reflexivity. }
  { apply Z.leb_le. vm_compute. reflexivity. }
  { apply Z.leb_le. vm_compute. reflexivity. }
  exists cropped. split; [exact Hc|].
  apply (crop_image_subgrid (blank_raster 800 1000) 1000 box_scenario cropped Hrect Hne Hc).
Defined.

(** *** [_crop_groundings] *)



(** A boxed grounding of a non-error chunk whose box lies in [0,1] but
    whose crop has no pixel, such as the box [(0, 0, 0, 0)], makes
    [cv2.imencode] raise [cv2.error]: [_crop_groundings] stops there and
    propagates it; when that grounding is the first one of the first chunk,
    no file is written, whatever the other groundings and chunks. *)
Theorem crop_groundings_empty_crop_raises (img : Raster) (c : Chunk) (chunks : list Chunk)
    (crop_save_dir : string) (g : ChunkGrounding) (gs : list ChunkGrounding)
    (bx : ChunkGroundingBox) (cropped : Raster)
    (Hkind : is_error (chunk_type c) = false) (Hg : grounding c = g :: gs)
    (Hbox : box g = Some bx) (Hc : _crop_image img bx = inr cropped)
    (Hempty : raster_empty cropped = true) :
  _crop_groundings img (c :: chunks) crop_save_dir =
    ([], Some (Cv2Error "(-215:Assertion failed) !image.empty() in function 'imencode'")).
Proof.
  cbn [_crop_groundings]. rewrite Hkind, Hg. cbn [crop_chunk_groundings].
  rewrite Hbox, Hc. unfold cv2_imencode_png. rewrite Hempty. reflexivity.
Qed.

Lemma crop_groundings_empty_crop_raises_witness :
  is_error (chunk_type zero_box_chunk) = false /\
  grounding zero_box_chunk = [ {| page := 0; box := Some zero_box |} ] /\
  _crop_image [[7]] zero_box = inr [] /\ raster_empty [] = true /\
  _crop_groundings [[7]] [zero_box_chunk; mixed_chunk] "out" =
    ([], Some (Cv2Error "(-215:Assertion failed) !image.empty() in function 'imencode'")).
Proof.
  assert (Hc : _crop_image [[7]] zero_box = inr []) by (vm_compute; reflexivity).
  split; [reflexivity|]. split; [reflexivity|]. split; [exact Hc|]. split; [reflexivity|].
  apply (crop_groundings_empty_crop_raises [[7]] zero_box_chunk [mixed_chunk] "out"
           {| page := 0; box := Some zero_box |} [] zero_box [] eq_refl eq_refl eq_refl Hc
           eq_refl).
Defined.

(** *** [save_groundings_as_images] on a PDF *)

(** On a PDF, if any non-error chunk has an empty grounding list,
    [save_groundings_as_images] raises [IndexError] from
    [chunk.grounding[0]] while grouping the chunks, before any page is
    rendered or any crop is written, whatever the other chunks are. *)
Theorem save_groundings_empty_grounding_fails (pdf_doc : PdfDoc) (chunks : list Chunk)
    (save_dir : string) (c : Chunk)
    (Hin : In c chunks) (Hkind : is_error (chunk_type c) = false)
    (Hg : grounding c = []) :
  save_groundings_as_images (PdfSource pdf_doc) chunks save_dir =
    ([], Some (IndexError "list index out of range")).
Proof.
  simpl. rewrite (group_by_first_page_missing chunks [] c Hin Hkind Hg). reflexivity.
Qed.


Lemma save_groundings_empty_grounding_fails_witness :
  In ungrounded_chunk [two_page_chunk; ungrounded_chunk] /\
  is_error (chunk_type ungrounded_chunk) = false /\ grounding ungrounded_chunk = [] /\
  save_groundings_as_images (PdfSource two_page_pdf) [two_page_chunk; ungrounded_chunk] "out" =
    ([], Some (IndexError "list index out of range")).
Proof.
  assert (Hin : In ungrounded_chunk [two_page_chunk; ungrounded_chunk])
    by (right; left; reflexivity).
  split; [exact Hin|]. split; [reflexivity|]. split; [reflexivity|].
  apply (save_groundings_empty_grounding_fails two_page_pdf _ "out" ungrounded_chunk Hin);
    reflexivity.
Defined.

(** ** Further properties of [Settings] (config.py) *)

(** *** Helper lemmas *)

Lemma check_min_spec (key : string) (rule : Rule) (v v' : PyVal) :
  check_min key rule v = inr v' ->
  v' = v /\ (forall mn, rmin rule = Some mn -> exists z, v = PInt z /\ mn <= z).
Proof.
  unfold check_min. destruct (rmin rule) as [mn|].
  - destruct v as [z|s|]; try discriminate.
    destruct (Z.ltb_spec z mn) as [Hlt|Hge]; [discriminate|]. intros H. injection H as <-.
    split; [reflexivity|]. intros mn' Hmn. injection Hmn as <-. exists z. split; [reflexivity|lia].
  - intros H. injection H as <-. split; [reflexivity|]. intros mn H. discriminate H.
Qed.

Lemma check_max_spec (key : string) (rule : Rule) (v v' : PyVal) :
  check_max key rule v = inr v' ->
  v' = v /\ (forall mx, rmax rule = Some mx -> exists z, v = PInt z /\ z <= mx).
Proof.
  unfold check_max. destruct (rmax rule) as [mx|].
  - destruct v as [z|s|]; try discriminate.
    destruct (Z.ltb_spec mx z) as [Hlt|Hge]; [discriminate|]. intros H. injection H as <-.
    split; [reflexivity|]. intros mx' Hmx. injection Hmx as <-. exists z. split; [reflexivity|lia].
  - intros H. injection H as <-. split; [reflexivity|]. intros mx H. discriminate H.
Qed.

Lemma check_choices_spec (key : string) (rule : Rule) (v v' : PyVal) :
  check_choices key rule v = inr v' ->
  v' = v /\ (forall cs, rchoices rule = Some cs -> exists s, v = PStr s /\ In s cs).
Proof.
  unfold check_choices. destruct (rchoices rule) as [cs|].
  - destruct v as [z|s|]; try discriminate.
    destruct (existsb (String.eqb s) cs) eqn:Hex; [|discriminate].
    intros H. injection H as <-. split; [reflexivity|].
    intros cs' Hcs. injection Hcs as <-. exists s. split; [reflexivity|].
    apply existsb_exists in Hex as [s' [Hin Heq]]. apply String.eqb_eq in Heq. subst s'.
    exact Hin.
  - intros H. injection H as <-. split; [reflexivity|]. intros cs H. discriminate H.
Qed.

(** The three checks of [_validate_value] return the converted value
    unchanged when they pass. *)
Lemma validate_checks_spec (key : string) (rule : Rule) (c v : PyVal) :
  match check_min key rule c with
  | inl e => inl e
  | inr v => match check_max key rule v with
             | inl e => inl e
             | inr v => check_choices key rule v
             end
  end = inr v ->
  v = c /\
  (forall mn, rmin rule = Some mn -> exists z, c = PInt z /\ mn <= z) /\
  (forall mx, rmax rule = Some mx -> exists z, c = PInt z /\ z <= mx) /\
  (forall cs, rchoices rule = Some cs -> exists s, c = PStr s /\ In s cs).
Proof.
  destruct (check_min key rule c) as [e|c1] eqn:H1; [discriminate|].
  destruct (check_max key rule c1) as [e|c2] eqn:H2; [discriminate|].
  intros H3.
  apply check_min_spec in H1 as [-> Hmin]. apply check_max_spec in H2 as [-> Hmax].
  apply check_choices_spec in H3 as [-> Hch]. auto.
Qed.

Lemma run_checks_keeps_values (st : Settings) :
  _user_values (fst (_run_validation_checks st)) = _user_values st /\
  environ (fst (_run_validation_checks st)) = environ st.
Proof.
  unfold _run_validation_checks, sm_bind, _get_value, sm_lift, sm_raise, sm_ret.
  destruct (_get_value_pure "batch_size" st); [split; reflexivity|].
  destruct (_get_value_pure "max_workers" st); [split; reflexivity|].
  destruct (py_mul _ _); [split; reflexivity|].
  destruct (_MAX_PARALLEL_TASKS <? _); [split; reflexivity|].
  destruct (_get_value_pure "retry_logging_style" st) as [e0|[z0|s0|]];
    try (split; reflexivity).
  destruct (String.eqb s0 "inline_block"); split; reflexivity.
Qed.

Lemma settings_entries_In (keys : list string) (st : Settings) :
  forall (entries : list (string * PyVal)) (key : string),
  settings_entries keys st = inr entries -> In key keys ->
  exists v v', _get_value_pure key st = inr v /\
    (if String.eqb key "vision_agent_api_key" then redact_api_key v else inr v) = inr v' /\
    In (prop_name key, v') entries.
Proof.
  induction keys as [|k rest IH]; intros entries key Hs Hin; [destruct Hin|].
  simpl in Hs.
  destruct (_get_value_pure k st) as [e|v] eqn:Hg; [discriminate|].
  destruct (if String.eqb k "vision_agent_api_key" then redact_api_key v else inr v)
    as [e|v'] eqn:Hr; [discriminate|].
  destruct (settings_entries rest st) as [e|es] eqn:Hes; [discriminate|].
  injection Hs as <-. destruct Hin as [<-|Hin].
  - exists v, v'. split; [exact Hg|]. split; [exact Hr|]. left. reflexivity.
  - destruct (IH es key eq_refl Hin) as (w & w' & Hw & Hw' & Hinw).
    exists w, w'. split; [exact Hw|]. split; [exact Hw'|]. right. exact Hinw.
Qed.

Lemma substring_prefix (n : nat) (s : string) : String.prefix (substring 0 n s) s = true.
Proof.
  revert n. induction s as [|c s IH]; intros n; destruct n as [|n]; simpl; try reflexivity.
  destruct (ascii_dec c c) as [_|Hne]; [apply IH|contradiction].
Qed.

Lemma substring_length (n : nat) (s : string) :
  String.length (substring 0 n s) = Nat.min n (String.length s).
Proof.
  revert n. induction s as [|c s IH]; intros n; destruct n as [|n]; simpl; try reflexivity.
  rewrite IH. reflexivity.
Qed.

(** *** [_validate_value] *)

(** A value accepted by [_validate_value] for a key with a rule is
    [int(value)] when the rule's type is [int] and [str(value)] when it is
    [str], and it satisfies the rule's bounds: it is an int [>= min] when
    the rule has a minimum, [<= max] when it has a maximum, and a string
    among the choices when it has choices. *)
Theorem validate_value_respects_rule (key : string) (rule : Rule) (value v : PyVal)
    (Hrule : _validation_rules !! key = Some rule)
    (Hv : _validate_value key value = inr v) :
  (rtype rule = IntRule -> exists z, py_int value = Some z /\ v = PInt z) /\
  (rtype rule = StrRule -> v = PStr (py_str value)) /\
  (forall mn, rmin rule = Some mn -> exists z, v = PInt z /\ mn <= z) /\
  (forall mx, rmax rule = Some mx -> exists z, v = PInt z /\ z <= mx) /\
  (forall cs, rchoices rule = Some cs -> exists s, v = PStr s /\ In s cs).
Proof.
  unfold _validate_value in Hv. rewrite Hrule in Hv.
  destruct (rtype rule) eqn:Hty.
  - destruct (py_int value) as [z|] eqn:Hz; [|discriminate].
    apply validate_checks_spec in Hv as (-> & Hmin & Hmax & Hch).
    split; [intros _; exists z; split; reflexivity|].
    split; [intros H; discriminate H|]. auto.
  - apply validate_checks_spec in Hv as (-> & Hmin & Hmax & Hch).
    split; [intros H; discriminate H|]. split; [reflexivity|]. auto.
Qed.

Lemma validate_value_respects_rule_witness :
  _validation_rules !! "split_size" = Some (int_rule 1 (Some 100)) /\
  _validate_value "split_size" (PStr " 4_2 ") = inr (PInt 42) /\
  (rtype (int_rule 1 (Some 100)) = IntRule ->
     exists z, py_int (PStr " 4_2 ") = Some z /\ PInt 42 = PInt z) /\
  (rtype (int_rule 1 (Some 100)) = StrRule -> PInt 42 = PStr (py_str (PStr " 4_2 "))) /\
  (forall mn, rmin (int_rule 1 (Some 100)) = Some mn -> exists z, PInt 42 = PInt z /\ mn <= z) /\
  (forall mx, rmax (int_rule 1 (Some 100)) = Some mx -> exists z, PInt 42 = PInt z /\ z <= mx) /\
  (forall cs, rchoices (int_rule 1 (Some 100)) = Some cs ->
     exists s, PInt 42 = PStr s /\ In s cs).
Proof.
  assert (Hr : _validation_rules !! "split_size" = Some (int_rule 1 (Some 100)))
    by (vm_compute; reflexivity).
  assert (Hv : _validate_value "split_size" (PStr " 4_2 ") = inr (PInt 42))
    by (vm_compute; reflexivity).
  split; [exact Hr|]. split; [exact Hv|].
  apply (validate_value_respects_rule "split_size" _ (PStr " 4_2 ") (PInt 42) Hr Hv).
Defined.

(** [_validate_value] is idempotent: a value it accepted (such as any value
    stored in [_user_values] or read back through [_get_value]) is
    accepted again unchanged. *)
Theorem validate_value_idempotent (key : string) (value v : PyVal)
    (Hv : _validate_value key value = inr v) :
  _validate_value key v = inr v.
Proof.
  unfold _validate_value in *.
  destruct (_validation_rules !! key) as [rule|]; [|reflexivity].
  destruct (rtype rule).
  - destruct (py_int value) as [z|]; [|discriminate].
    pose proof Hv as Hv'. apply validate_checks_spec in Hv' as (-> & _). exact Hv.
  - pose proof Hv as Hv'. apply validate_checks_spec in Hv' as (-> & _). exact Hv.
Qed.

Lemma validate_value_idempotent_witness :
  _validate_value "max_retries" (PStr "+7") = inr (PInt 7) /\
  _validate_value "max_retries" (PInt 7) = inr (PInt 7).
Proof.
  assert (Hv : _validate_value "max_retries" (PStr "+7") = inr (PInt 7))
    by (vm_compute; reflexivity).
  split; [exact Hv|]. apply (validate_value_idempotent "max_retries" (PStr "+7") _ Hv).
Defined.

(** *** [_set_value] *)

(** Whether [_set_value(key, value)] returns or raises, its only effect on
    [_user_values] is to store the validated value under [key], and only
    when [_validate_value] accepts [value]: a value rejected by validation
    leaves [_user_values] untouched, while a value accepted by validation
    stays stored even when the checks that follow raise.  The environment
    is never changed. *)
Theorem set_value_stores_iff_valid (key : string) (value : PyVal) (st : Settings) :
  _user_values (fst (_set_value key value st)) =
    match _validate_value key value with
    | inr v => <[key := v]> (_user_values st)
    | inl _ => _user_values st
    end /\
  environ (fst (_set_value key value st)) = environ st.
Proof.
  destruct (_validate_value key value) as [e|v] eqn:Hv.
  - unfold _set_value, sm_bind, sm_lift. rewrite Hv. split; reflexivity.
  - rewrite (set_value_unfold key value v st Hv).
    destruct (run_checks_keeps_values (store_user_value key v st)) as [Hu He].
    rewrite Hu, He. split; reflexivity.
Qed.

(** When the batch size and the max workers read as ints whose product
    exceeds the ceiling of 200 (as environment values can make them),
    setting any other key to a valid value stores it and then raises
    [ValueError] from the checks that [_set_value] runs after storing. *)
Theorem set_other_key_raises_over_ceiling (key : string) (value v : PyVal)
    (st : Settings) (bs mw : Z)
    (Hkey : key <> "batch_size" /\ key <> "max_workers")
    (Hv : _validate_value key value = inr v)
    (Hb : _get_value_pure "batch_size" st = inr (PInt bs))
    (Hm : _get_value_pure "max_workers" st = inr (PInt mw))
    (Hover : _MAX_PARALLEL_TASKS < bs * mw) :
  let '(st', res) := _set_value key value st in
  (exists msg, res = inl (ValueError msg)) /\ _get_value_pure key st' = inr v.
Proof.
  destruct Hkey as [Hkb Hkm].
  rewrite (set_value_unfold key value v st Hv).
  destruct (run_checks_over_ceiling (store_user_value key v st) bs mw) as [msg Hr].
  - rewrite get_value_stored_other by congruence. exact Hb.
  - rewrite get_value_stored_other by congruence. exact Hm.
  - exact Hover.
  - rewrite Hr. split; [eexists; reflexivity|]. apply get_value_stored.
Qed.

Lemma set_other_key_raises_over_ceiling_witness :
  let st := settings_init (env_two "VA_BATCH_SIZE" "100" "VA_MAX_WORKERS" "100") ∅ in
  _validate_value "split_size" (PInt 20) = inr (PInt 20) /\
  _get_value_pure "batch_size" st = inr (PInt 100) /\
  _get_value_pure "max_workers" st = inr (PInt 100) /\
  let '(st', res) := _set_value "split_size" (PInt 20) st in
  (exists msg, res = inl (ValueError msg)) /\ _get_value_pure "split_size" st' = inr (PInt 20).
Proof.
  intros st.
  assert (Hv : _validate_value "split_size" (PInt 20) = inr (PInt 20))
    by (vm_compute; reflexivity).
  assert (Hb : _get_value_pure "batch_size" st = inr (PInt 100)) by (vm_compute; reflexivity).
  assert (Hm : _get_value_pure "max_workers" st = inr (PInt 100)) by (vm_compute; reflexivity).
  split; [exact Hv|]. split; [exact Hb|]. split; [exact Hm|].
  apply (set_other_key_raises_over_ceiling "split_size" (PInt 20) (PInt 20) st 100 100);
    [split; discriminate|exact Hv|exact Hb|exact Hm|unfold _MAX_PARALLEL_TASKS; lia].
Defined.

(** While the batch size cannot be read (for instance a [VA_BATCH_SIZE]
    that is not an integer), setting any other key stores the validated
    value and then raises the batch size's read error. *)
Theorem set_value_raises_unreadable_batch_size (key : string) (value v : PyVal)
    (st : Settings) (e : PyExc)
    (Hkey : key <> "batch_size")
    (Hv : _validate_value key value = inr v)
    (Hb : _get_value_pure "batch_size" st = inl e) :
  _set_value key value st = (store_user_value key v st, inl e).
Proof.
  rewrite (set_value_unfold key value v st Hv).
  unfold _run_validation_checks, sm_bind at 1, _get_value at 1.
  rewrite get_value_stored_other by congruence. rewrite Hb. reflexivity.
Qed.

Lemma set_value_raises_unreadable_batch_size_witness :
  let st := settings_init (<["VA_BATCH_SIZE" := "eight"]> ∅) ∅ in
  _validate_value "max_retries" (PInt 3) = inr (PInt 3) /\
  _get_value_pure "batch_size" st =
    inl (ValueError "Invalid value for batch_size: must be an integer") /\
  _set_value "max_retries" (PInt 3) st =
    (store_user_value "max_retries" (PInt 3) st,
     inl (ValueError "Invalid value for batch_size: must be an integer")).
Proof.
  intros st.
  assert (Hv : _validate_value "max_retries" (PInt 3) = inr (PInt 3))
    by (vm_compute; reflexivity).
  assert (Hb : _get_value_pure "batch_size" st =
                 inl (ValueError "Invalid value for batch_size: must be an integer"))
    by (vm_compute; reflexivity).
  split; [exact Hv|]. split; [exact Hb|].
  apply (set_value_raises_unreadable_batch_size "max_retries" (PInt 3) (PInt 3) st _);
    [discriminate|exact Hv|exact Hb].
Defined.

(** When the checks pass (both values read as ints with product at most
    200) and the logging style reads as a string, [_set_value] stores the
    validated value, returns normally, and leaves the [httpx] logger at
    WARNING exactly when it already was or the style is [inline_block]:
    the level is raised by an [inline_block] style and never lowered. *)
Theorem set_value_httpx_level (key : string) (value v : PyVal) (st : Settings)
    (bs mw : Z) (style : string)
    (Hv : _validate_value key value = inr v)
    (Hb : _get_value_pure "batch_size" (store_user_value key v st) = inr (PInt bs))
    (Hm : _get_value_pure "max_workers" (store_user_value key v st) = inr (PInt mw))
    (Hok : bs * mw <= _MAX_PARALLEL_TASKS)
    (Hs : _get_value_pure "retry_logging_style" (store_user_value key v st) = inr (PStr style)) :
  _set_value key value st =
    ({| _user_values := <[key := v]> (_user_values st); environ := environ st;
        httpx_level_warning := orb (httpx_level_warning st) (String.eqb style "inline_block") |},
     inr tt).
Proof.
  rewrite (set_value_unfold key value v st Hv).
  unfold _run_validation_checks, sm_bind, _get_value, sm_lift, sm_raise, sm_ret.
  rewrite Hb, Hm. simpl.
  destruct (Z.ltb_spec _MAX_PARALLEL_TASKS (bs * mw)); [lia|].
  rewrite Hs. unfold store_user_value. simpl.
  destruct (String.eqb style "inline_block"); rewrite ?orb_true_r, ?orb_false_r;
    reflexivity.
Qed.

Lemma set_value_httpx_level_witness :
  let st := settings_init ∅ ∅ in
  let st1 := store_user_value "retry_logging_style" (PStr "inline_block") st in
  _validate_value "retry_logging_style" (PStr "inline_block") = inr (PStr "inline_block") /\
  _get_value_pure "batch_size" st1 = inr (PInt 4) /\
  _get_value_pure "max_workers" st1 = inr (PInt 5) /\
  _get_value_pure "retry_logging_style" st1 = inr (PStr "inline_block") /\
  _set_value "retry_logging_style" (PStr "inline_block") st =
    ({| _user_values := <[ "retry_logging_style" := PStr "inline_block"]> (_user_values st);
        environ := environ st;
        httpx_level_warning := orb (httpx_level_warning st)
                                   (String.eqb "inline_block" "inline_block") |},
     inr tt).
Proof.
  intros st st1.
  assert (Hv : _validate_value "retry_logging_style" (PStr "inline_block")
               = inr (PStr "inline_block")) by (vm_compute; reflexivity).
  assert (Hb : _get_value_pure "batch_size" st1 = inr (PInt 4)) by (vm_compute; reflexivity).
  assert (Hm : _get_value_pure "max_workers" st1 = inr (PInt 5)) by (vm_compute; reflexivity).
  assert (Hs : _get_value_pure "retry_logging_style" st1 = inr (PStr "inline_block"))
    by (vm_compute; reflexivity).
  split; [exact Hv|]. split; [exact Hb|]. split; [exact Hm|]. split; [exact Hs|].
  apply (set_value_httpx_level "retry_logging_style" (PStr "inline_block")
           (PStr "inline_block") st 4 5 "inline_block" Hv Hb Hm); [|exact Hs].
  unfold _MAX_PARALLEL_TASKS. lia.
Defined.

(** *** [_get_value] *)

(** For an int-typed key that the user has not set, an environment value
    that [int()] cannot parse makes every read of the key raise
    [ValueError("Invalid value for <key>: must be an integer")]; the
    default is not used as a fallback. *)
Theorem get_value_bad_int_env_raises (key env_var s : string) (rule : Rule) (st : Settings)
    (Hunset : _user_values st !! key = None)
    (Hmap : _env_mappings !! key = Some env_var)
    (Henv : environ st !! env_var = Some s)
    (Hrule : _validation_rules !! key = Some rule) (Hint : rtype rule = IntRule)
    (Hparse : py_int_of_string s = None) :
  _get_value_pure key st = inl (ValueError ("Invalid value for " ++ key ++ ": must be an integer")).
Proof.
  unfold _get_value_pure. rewrite Hunset, Hmap, Henv.
  unfold _validate_value. rewrite Hrule, Hint. simpl. rewrite Hparse. reflexivity.
Qed.

Lemma get_value_bad_int_env_raises_witness :
  let st := settings_init (<["VA_MAX_WORKERS" := "4.5"]> ∅) ∅ in
  _user_values st !! "max_workers" = None /\
  _env_mappings !! "max_workers" = Some "VA_MAX_WORKERS" /\
  environ st !! "VA_MAX_WORKERS" = Some "4.5" /\
  _validation_rules !! "max_workers" = Some (int_rule 1 None) /\
  rtype (int_rule 1 None) = IntRule /\ py_int_of_string "4.5" = None /\
  _get_value_pure "max_workers" st =
    inl (ValueError ("Invalid value for " ++ "max_workers" ++ ": must be an integer")).
Proof.
  intros st.
  assert (H1 : _user_values st !! "max_workers" = None) by reflexivity.
  assert (H2 : _env_mappings !! "max_workers" = Some "VA_MAX_WORKERS")
    by (vm_compute; reflexivity).
  assert (H3 : environ st !! "VA_MAX_WORKERS" = Some "4.5") by (vm_compute; reflexivity).
  assert (H4 : _validation_rules !! "max_workers" = Some (int_rule 1 None))
    by (vm_compute; reflexivity).
  assert (H6 : py_int_of_string "4.5" = None) by (vm_compute; reflexivity).
  do 4 (split; [assumption|]). split; [reflexivity|]. split; [exact H6|].
  apply (get_value_bad_int_env_raises "max_workers" "VA_MAX_WORKERS" "4.5"
           (int_rule 1 None) st H1 H2 H3 H4 eq_refl H6).
Defined.

(** *** [Settings.__str__] *)

(** When [str(settings)] succeeds, its [vision_agent_api_key] entry shows at
    most the first five characters of the key: a non-empty key of more
    than five characters appears as its first five characters followed by
    [[REDACTED]], a shorter non-empty key as [[REDACTED]] alone, and an
    empty key as the empty string. *)
Theorem settings_str_redacts_api_key (st : Settings) (key : string)
    (entries : list (string * PyVal))
    (Hkey : _get_value_pure "vision_agent_api_key" st = inr (PStr key))
    (Hstr : settings_dict st = inr entries) :
  exists shown,
    In ("vision_agent_api_key", PStr shown) entries /\
    (key = "" -> shown = "") /\
    (key <> "" -> exists p, shown = p ++ "[REDACTED]" /\ String.prefix p key = true /\
       String.length p = (if Nat.ltb 5 (String.length key) then 5 else 0)%nat).
Proof.
  destruct (settings_entries_In _defaults_keys st entries "vision_agent_api_key" Hstr)
    as (v & v' & Hg & Hr & Hin); [right; left; reflexivity|].
  rewrite Hkey in Hg. injection Hg as <-. simpl in Hr.
  destruct key as [|c rest] eqn:Ek.
  - injection Hr as <-. exists "". split; [exact Hin|].
    split; [reflexivity|]. intros Hne. contradiction.
  - rewrite <- Ek in *. injection Hr as <-.
    eexists. split; [exact Hin|]. split; [intros H; rewrite Ek in H; discriminate H|].
    intros _.
    destruct (Nat.ltb_spec 5 (String.length key)) as [Hlong|Hshort].
    + exists (substring 0 5 key). split; [reflexivity|]. split; [apply substring_prefix|].
      rewrite substring_length. lia.
    + exists "". split; [reflexivity|]. split; [rewrite Ek; reflexivity|reflexivity].
Qed.

Lemma settings_str_redacts_api_key_witness :
  let st := settings_init (<["VISION_AGENT_API_KEY" := "land_sk_0123456789"]> ∅) ∅ in
  _get_value_pure "vision_agent_api_key" st = inr (PStr "land_sk_0123456789") /\
  settings_dict st = inr (match settings_dict st with inr d => d | inl _ => [] end) /\
  exists shown,
    In ("vision_agent_api_key", PStr shown)
       (match settings_dict st with inr d => d | inl _ => [] end) /\
    ("land_sk_0123456789" = "" -> shown = "") /\
    ("land_sk_0123456789" <> "" ->
       exists p, shown = p ++ "[REDACTED]" /\ String.prefix p "land_sk_0123456789" = true /\
       String.length p =
         (if Nat.ltb 5 (String.length "land_sk_0123456789") then 5 else 0)%nat).
Proof.
  intros st.
  assert (Hk : _get_value_pure "vision_agent_api_key" st = inr (PStr "land_sk_0123456789"))
    by (vm_compute; reflexivity).
  assert (Hd : settings_dict st = inr (match settings_dict st with inr d => d | inl _ => [] end))
    by (vm_compute; reflexivity).
  split; [exact Hk|]. split; [exact Hd|].
  apply (settings_str_redacts_api_key st "land_sk_0123456789" _ Hk Hd).
Defined.

(** [str(settings)] reads every setting: if the read of any key of
    [_defaults] raises (an unparsable or out-of-range environment value,
    for instance), [str(settings)] raises too. *)
Theorem settings_str_raises_on_unreadable (st : Settings) (key : string) (e : PyExc)
    (Hkey : In key _defaults_keys) (Hread : _get_value_pure key st = inl e) :
  exists e', settings_dict st = inl e'.
Proof.
  destruct (settings_dict st) as [e'|entries] eqn:Hd; [exists e'; reflexivity|].
  destruct (settings_entries_In _defaults_keys st entries key Hd Hkey) as (v & _ & Hg & _).
  congruence.
Qed.

Lemma settings_str_raises_on_unreadable_witness :
  let st := settings_init (<["VA_SPLIT_SIZE" := "0"]> ∅) ∅ in
  In "split_size" _defaults_keys /\
  _get_value_pure "split_size" st = inl (ValueError ("Invalid value for split_size: must be >= " ++ Z_to_string 1)) /\
  exists e', settings_dict st = inl e'.
Proof.
  intros st.
  assert (Hin : In "split_size" _defaults_keys) by (simpl; tauto).
  assert (Hr : _get_value_pure "split_size" st =
                 inl (ValueError ("Invalid value for split_size: must be >= " ++ Z_to_string 1)))
    by (vm_compute; reflexivity).
  split; [exact Hin|]. split; [exact Hr|].
  apply (settings_str_raises_on_unreadable st "split_size" _ Hin Hr).
Defined.

(** *** [log_retry_failure] and the configured style *)

(** A value [_validate_value] accepts for the style key is one of the
    three styles. *)
Lemma validated_style_valid (x v : PyVal) :
  _validate_value "retry_logging_style" x = inr v -> valid_style (py_str v).
Proof.
  unfold _validate_value.
  assert (Hr : _validation_rules !! "retry_logging_style" =
    Some {| rtype := StrRule; rmin := None; rmax := None;
            rchoices := Some ["none"; "log_msg"; "inline_block"] |})
    by (vm_compute; reflexivity).
  rewrite Hr. cbn [rtype]. intros H.
  apply validate_checks_spec in H as (-> & _ & _ & Hch).
  destruct (Hch _ eq_refl) as [s [Hs Hin]]. rewrite Hs. simpl.
  destruct Hin as [<-|[<-|[<-|[]]]]; unfold valid_style; auto.
Qed.

(** Whatever it comes from (a stored value that passed validation, the
    validated environment variable or the default), a style read without
    error is one of the three styles. *)
Lemma style_read_valid (st : Settings) (v : PyVal) :
  (forall u, _user_values st !! "retry_logging_style" = Some u ->
     _validate_value "retry_logging_style" u = inr u) ->
  _get_value_pure "retry_logging_style" st = inr v -> valid_style (py_str v).
Proof.
  intros Hstored. unfold _get_value_pure.
  destruct (_user_values st !! "retry_logging_style") as [u|] eqn:Hu.
  - intros H. injection H as <-. exact (validated_style_valid u u (Hstored u eq_refl)).
  - assert (Hm : _env_mappings !! "retry_logging_style" = Some "VA_RETRY_LOGGING_STYLE")
      by (vm_compute; reflexivity).
    assert (Hd : _defaults !! "retry_logging_style" = Some (PStr "log_msg"))
      by (vm_compute; reflexivity).
    rewrite Hm, Hd.
    destruct (environ st !! "VA_RETRY_LOGGING_STYLE") as [env|].
    + apply validated_style_valid.
    + intros H. injection H as <-. simpl. unfold valid_style. auto.
Qed.

(** [log_retry_failure] reads [settings.retry_logging_style] only on a
    failed outcome: otherwise it emits nothing and raises nothing, whatever
    the settings hold, even a style that cannot be read.  On a failed
    outcome, when the stored style (if any) is one that [_validate_value]
    accepts, as the setters ensure, the hook raises exactly the error of
    reading the style (an environment variable outside the three styles)
    and otherwise succeeds: its own [ValueError("Invalid retry logging
    style: ...")] is not reached. *)
Theorem log_retry_failure_settings_read (st : Settings) (rs : RetryCallState)
    (Hstored : forall u, _user_values st !! "retry_logging_style" = Some u ->
                 _validate_value "retry_logging_style" u = inr u) :
  ((forall e, outcome rs <> Some (Failed e)) -> log_retry_failure_settings st rs = inr []) /\
  (forall e, outcome rs = Some (Failed e) ->
     match _get_value_pure "retry_logging_style" st with
     | inl err => log_retry_failure_settings st rs = inl err
     | inr _ => exists ds, log_retry_failure_settings st rs = inr ds
     end).
Proof.
  unfold log_retry_failure_settings. split.
  - intros Hnf. destruct (outcome rs) as [[p|e]|]; [reflexivity| |reflexivity].
    exfalso. exact (Hnf e eq_refl).
  - intros e He. rewrite He.
    destruct (_get_value_pure "retry_logging_style" st) as [err|v] eqn:Hg; [reflexivity|].
    apply log_retry_failure_total. exact (style_read_valid st v Hstored Hg).
Qed.

Lemma log_retry_failure_settings_read_witness :
  (forall u, _user_values loud_style_settings !! "retry_logging_style" = Some u ->
     _validate_value "retry_logging_style" u = inr u) /\
  log_retry_failure_settings loud_style_settings failed_attempt =
    inl (ValueError ("Invalid value for retry_logging_style: must be one of " ++
                     "['none', 'log_msg', 'inline_block']")) /\
  log_retry_failure_settings loud_style_settings
    (mkRetryCallState 2 (Some (Success "ok")) None) = inr [] /\
  match _get_value_pure "retry_logging_style" loud_style_settings with
  | inl err => log_retry_failure_settings loud_style_settings failed_attempt = inl err
  | inr _ => exists ds, log_retry_failure_settings loud_style_settings failed_attempt = inr ds
  end.
Proof.
  assert (Hstored : forall u, _user_values loud_style_settings !! "retry_logging_style" = Some u ->
            _validate_value "retry_logging_style" u = inr u).
  { intros u Hu. vm_compute in Hu. discriminate Hu. }
  split; [exact Hstored|]. split; [vm_compute; reflexivity|]. split.
  - apply (proj1 (log_retry_failure_settings_read loud_style_settings
                    (mkRetryCallState 2 (Some (Success "ok")) None) Hstored)).
    intros e He. discriminate He.
  - apply (proj2 (log_retry_failure_settings_read loud_style_settings failed_attempt Hstored)
             (TransportError "reset") eq_refl).
Defined.
